(** * cf_ai_studybuddy: the chat Worker and its Durable Object

    A shallow embedding of [src/server.ts]: the Worker's [fetch] router and
    the [ChatAgent] Durable Object (history storage, reply generation and
    the request handler), followed by the properties of the conversation
    component.

    JavaScript strings are sequences of UTF-16 code units, Durable Object
    storage is a finite map, and the [async] methods are computations in a
    state-and-exception monad over the platform state. The two external
    collaborators, the text-generation binding [env.AI] and the asset
    fetcher [env.ASSETS], are functions supplied by the environment.

    Requests are taken one at a time, each running to completion before
    the next one starts; storage operations always complete; [console.log]
    is left out.

    Of the client, [app.js], the parts that compute are embedded as well:
    how [openChat] reads the history text, [formatTitle], and the list of
    chats kept in [localStorage] ([getChatsSafe], [saveChats],
    [findChatById], [renameChat], [deleteChatLocal]), with [JSON.parse] and
    [JSON.stringify] taken as given. *)

From Stdlib Require Import ZArith NArith String Ascii.
From stdpp Require Import gmap list.

Open Scope list_scope.

(* ------------------------------------------------------------------ *)
(** ** JavaScript strings *)
(* ------------------------------------------------------------------ *)

(** A string is its list of UTF-16 code units. *)
Abbreviation jsstring := (list N).

(** The code units of an ASCII literal. *)
Fixpoint js (s : string) : jsstring :=
  match s with
  | EmptyString => []
  | String a rest => N_of_ascii a :: js rest
  end.

Arguments js : simpl never.

Definition SLASH : N := 47.
Definition LF : N := 10.

(** [s.startsWith(p)] *)
Fixpoint startsWith (s p : jsstring) {struct p} : bool :=
  match p, s with
  | [], _ => true
  | _ :: _, [] => false
  | c :: p', d :: s' => (c =? d)%N && startsWith s' p'
  end.

(** [s.endsWith(p)] *)
Definition endsWith (s p : jsstring) : bool :=
  startsWith (rev s) (rev p).

(** [xs.includes(x)] on an array of strings. *)
Definition includes (xs : list jsstring) (x : jsstring) : bool :=
  existsb (fun y => bool_decide (y = x)) xs.

(** [s.split(sep)] for a separator of one code unit: the pieces between
    the occurrences of [sep]; never an empty array. *)
Fixpoint split (sep : N) (s : jsstring) : list jsstring :=
  match s with
  | [] => [[]]
  | c :: s' =>
      if (c =? sep)%N then [] :: split sep s'
      else match split sep s' with
           | [] => [[c]]
           | piece :: pieces => (c :: piece) :: pieces
           end
  end.

(** [xs.pop()]: the last element, [undefined] on an empty array. *)
Fixpoint pop {A} (xs : list A) : option A :=
  match xs with
  | [] => None
  | [x] => Some x
  | _ :: xs' => pop xs'
  end.

(** [xs.join(sep)] *)
Fixpoint join (sep : jsstring) (xs : list jsstring) : jsstring :=
  match xs with
  | [] => []
  | [x] => x
  | x :: xs' => x ++ sep ++ join sep xs'
  end.

(** ECMAScript WhiteSpace and LineTerminator code points; all of them lie
    in the Basic Multilingual Plane, so each is one code unit. *)
Definition isWhiteSpace (c : N) : bool :=
  ((9 <=? c) && (c <=? 13)
   || (c =? 32) || (c =? 160) || (c =? 5760)
   || (8192 <=? c) && (c <=? 8202)
   || (c =? 8232) || (c =? 8233) || (c =? 8239) || (c =? 8287)
   || (c =? 12288) || (c =? 65279))%N.

Fixpoint trimStart (s : jsstring) : jsstring :=
  match s with
  | [] => []
  | c :: s' => if isWhiteSpace c then trimStart s' else s
  end.

(** [s.trim()] *)
Definition trim (s : jsstring) : jsstring :=
  rev (trimStart (rev (trimStart s))).

(* ------------------------------------------------------------------ *)
(** ** JavaScript values returned by the model binding *)
(* ------------------------------------------------------------------ *)

(** The data values [env.AI.run] can resolve to. An object is the list of
    the properties visible through [in] and property access; values are
    data, so no property of an object is callable. *)
#[warnings="-register-all"]
Inductive JsValue : Type :=
  | JUndefined
  | JNull
  | JBoolean (b : bool)
  | JNumber (n : Z)
  | JString (s : jsstring)
  | JObject (props : list (jsstring * JsValue)).

(** [typeof v] *)
Definition typeof (v : JsValue) : jsstring :=
  match v with
  | JUndefined => js "undefined"
  | JNull => js "object"
  | JBoolean _ => js "boolean"
  | JNumber _ => js "number"
  | JString _ => js "string"
  | JObject _ => js "object"
  end.

(** ToBoolean, as used by [&&]. *)
Definition truthy (v : JsValue) : bool :=
  match v with
  | JUndefined | JNull => false
  | JBoolean b => b
  | JNumber n => negb (n =? 0)%Z
  | JString s => negb (bool_decide (s = []))
  | JObject _ => true
  end.

(** [key in v], for [v] an object. *)
Definition hasProperty (key : jsstring) (v : JsValue) : bool :=
  match v with
  | JObject props => existsb (fun kv => bool_decide (kv.1 = key)) props
  | _ => false
  end.

Fixpoint lookupProperty (key : jsstring) (props : list (jsstring * JsValue))
  : JsValue :=
  match props with
  | [] => JUndefined
  | (k, v) :: rest => if bool_decide (k = key) then v else lookupProperty key rest
  end.

(* ------------------------------------------------------------------ *)
(** ** Requests, responses and the platform state *)
(* ------------------------------------------------------------------ *)

Record Request := {
  method : jsstring;
  pathname : jsstring;      (* [new URL(request.url).pathname] *)
  body : jsstring           (* what [request.text()] resolves to *)
}.

Record Response := {
  resp_body : jsstring;
  status : Z;
  headers : list (jsstring * jsstring)   (* the headers given at construction *)
}.

Record ChatMessage := { role : jsstring; content : jsstring }.

(** One call of [env.AI.run(model, { messages, max_tokens })]. *)
Record AiCall := {
  model : jsstring;
  messages : list ChatMessage;
  max_tokens : Z
}.

(** What can be thrown: the engine's [TypeError], or whatever a
    collaborator rejects with. *)
Inductive Exn : Type :=
  | TypeError
  | External (reason : jsstring).

Inductive completion (A : Type) : Type :=
  | Return (a : A)
  | Throw (e : Exn).
Arguments Return {A} a.
Arguments Throw {A} e.

(** The state the program acts on. Every Durable Object has a storage of
    its own: [durable] maps (object name, key) to the stored string array.
    [ai_log] records the calls made to the model so far, oldest first. *)
Record World := {
  durable : gmap (jsstring * jsstring) (list jsstring);
  ai_log : list AiCall
}.

(** The bindings of [Env]. The model may answer the same call differently
    over time: its answer is a function of the calls made before. *)
Record Env := {
  AI_run : list AiCall -> AiCall -> completion JsValue;
  ASSETS_fetch : Request -> completion Response
}.

(** Asynchronous computations: state passing with exceptions. A throw
    keeps the state reached so far. *)
Definition Async (A : Type) : Type := World -> completion A * World.

Definition ret {A} (a : A) : Async A := fun w => (Return a, w).

Definition throw {A} (e : Exn) : Async A := fun w => (Throw e, w).

Definition bind {A B} (c : Async A) (k : A -> Async B) : Async B :=
  fun w =>
    match c w with
    | (Return a, w') => k a w'
    | (Throw e, w') => (Throw e, w')
    end.

Notation "x <- c ;; k" := (bind c (fun x => k))
  (at level 100, c at next level, right associativity).

(** [try { c } catch (err) { h err }] *)
Definition try_catch {A} (c : Async A) (h : Exn -> Async A) : Async A :=
  fun w =>
    match c w with
    | (Return a, w') => (Return a, w')
    | (Throw e, w') => h e w'
    end.

(** [state.storage.get(key)], [put] and [delete] of the object [this]. *)
Definition storage_get (this key : jsstring) : Async (option (list jsstring)) :=
  fun w => (Return (durable w !! (this, key)), w).

Definition storage_put (this key : jsstring) (v : list jsstring) : Async unit :=
  fun w => (Return tt, {| durable := <[(this, key) := v]> (durable w);
                          ai_log := ai_log w |}).

Definition storage_delete (this key : jsstring) : Async unit :=
  fun w => (Return tt, {| durable := delete (this, key) (durable w);
                          ai_log := ai_log w |}).

(** [env.AI.run]: the call is recorded, then the model answers. *)
Definition ai_run (env : Env) (call : AiCall) : Async JsValue :=
  fun w => (AI_run env (ai_log w) call,
            {| durable := durable w; ai_log := ai_log w ++ [call] |}).

Definition assets_fetch (env : Env) (request : Request) : Async Response :=
  fun w => (ASSETS_fetch env request, w).

(* ------------------------------------------------------------------ *)
(** ** The Durable Object [ChatAgent] *)
(* ------------------------------------------------------------------ *)

Module ChatAgent.

(** Every method takes [this], the name the object was obtained under
    ([idFromName]); it selects the object's own storage. *)

Definition loadHistory (this : jsstring) : Async (list jsstring) :=
  stored <- storage_get this (js "history") ;;
  ret (match stored with
       | Some history => history       (* an array is truthy, even when empty *)
       | None => []
       end).

Definition saveHistory (this : jsstring) (history : list jsstring) : Async unit :=
  storage_put this (js "history") history.

Definition clearHistory (this : jsstring) : Async unit :=
  storage_delete this (js "history").

Definition systemPrompt : jsstring :=
  js "You are " ++ [34%N] ++ js "AI Study Buddy" ++ [34%N]
  ++ js ", a concise and encouraging AI tutor." ++ [LF]
  ++ js "Reply in a natural, friendly tone. Keep answers short (1"
  ++ [8211%N] ++ js "2 sentences).".

Definition modelName : jsstring :=
  js "@cf/meta/llama-3.3-70b-instruct-fp8-fast".

(** The request [getAIResponse] sends for a prompt and a history. *)
Definition modelRequest (prompt : jsstring) (history : list jsstring) : AiCall :=
  let conversation := join [LF] (history ++ [js "User: " ++ prompt]) in
  {| model := modelName;
     messages := [ {| role := js "system"; content := systemPrompt |};
                   {| role := js "user"; content := conversation |} ];
     max_tokens := 50 |}.

(** The last [return] of [getAIResponse]; the apostrophe is U+2019. *)
Definition fallbackReply : jsstring :=
  js "Sorry, I couldn" ++ [8217%N] ++ js "t generate a reply.".

(** [v.response] *)
Definition getProperty (key : jsstring) (v : JsValue) : Async JsValue :=
  match v with
  | JObject props => ret (lookupProperty key props)
  | JUndefined | JNull => throw TypeError
  | JBoolean _ | JNumber _ | JString _ => ret JUndefined
  end.

(** [v.trim()]: only a string has a [trim] method. *)
Definition invokeTrim (v : JsValue) : Async jsstring :=
  match v with
  | JString s => ret (trim s)
  | _ => throw TypeError
  end.

(** The statements after the model call: "Extract clean text". *)
Definition extractReply (result : JsValue) : Async jsstring :=
  if bool_decide (typeof result = js "string") then invokeTrim result
  else if truthy result
          && bool_decide (typeof result = js "object")
          && hasProperty (js "response") result
  then (response <- getProperty (js "response") result ;; invokeTrim response)
  else ret fallbackReply.

Definition getAIResponse (env : Env) (prompt : jsstring) (history : list jsstring)
  : Async jsstring :=
  result <- ai_run env (modelRequest prompt history) ;;
  extractReply result.

Definition textPlain : list (jsstring * jsstring) :=
  [(js "content-type", js "text/plain")].

Definition clearedText : jsstring := [9989%N] ++ js " Chat history cleared.".

Definition fetch (env : Env) (this : jsstring) (request : Request) : Async Response :=
  if endsWith (pathname request) (js "/reset") then
    _ <- clearHistory this ;;
    ret {| resp_body := clearedText; status := 200; headers := textPlain |}
  else if bool_decide (method request = js "POST") then
    let text := body request in
    history <- loadHistory this ;;
    reply <- getAIResponse env text history ;;
    let history := history ++ [js "User: " ++ text; js "AI: " ++ reply] in
    _ <- saveHistory this history ;;
    ret {| resp_body := reply; status := 200; headers := textPlain |}
  else if bool_decide (method request = js "GET") then
    history <- loadHistory this ;;
    ret {| resp_body := join [LF] history; status := 200; headers := textPlain |}
  else
    ret {| resp_body := js "ChatAgent ready (send POST data)";
           status := 200; headers := [] |}.

End ChatAgent.

(* ------------------------------------------------------------------ *)
(** ** The Worker *)
(* ------------------------------------------------------------------ *)

Module Worker.

Definition internalErrorText : jsstring :=
  [9888%N; 65039%N] ++ js " Internal Error while serving assets".

(** [new Request(new URL("/index.html", request.url).toString(), request)] *)
Definition indexRequest (request : Request) : Request :=
  {| method := method request; pathname := js "/index.html"; body := body request |}.

Definition fetch (env : Env) (request : Request) : Async Response :=
  let path := pathname request in
  if startsWith path (js "/chat/")
     && includes [js "POST"; js "GET"] (method request)
  then
    match pop (split SLASH path) with
    | Some id =>
        (* [env.ChatAgent.get(env.ChatAgent.idFromName(id)).fetch(request)] *)
        ChatAgent.fetch env id request
    | None => throw TypeError
    end
  else
    try_catch
      (asset <- assets_fetch env request ;;
       if (status asset =? 404)%Z then
         if bool_decide (path = js "/") || bool_decide (path = [])
            || endsWith path (js "/")
         then assets_fetch env (indexRequest request)
         else ret asset
       else ret asset)
      (fun err =>
         ret {| resp_body := internalErrorText; status := 500; headers := [] |}).

End Worker.

(* ------------------------------------------------------------------ *)
(** ** The three operations of the request surface *)
(* ------------------------------------------------------------------ *)

(** The requests the client sends for a conversation [id]:
    [GET /chat/{id}], [POST /chat/{id}] and [POST /chat/{id}/reset]. The
    path is the one the Worker reads for an id made of letters and digits,
    as [generateChatId] makes them: the URL parser leaves such an id as it
    is. For other ids (with "?", "#", "%", dots, ...) the parser rewrites
    the path, and what is proved about all requests is stated on
    [pathname], not through these three. *)
Definition getRequest (id : jsstring) : Request :=
  {| method := js "GET"; pathname := js "/chat/" ++ id; body := [] |}.

Definition postRequest (id message : jsstring) : Request :=
  {| method := js "POST"; pathname := js "/chat/" ++ id; body := message |}.

Definition resetRequest (id : jsstring) : Request :=
  {| method := js "POST"; pathname := js "/chat/" ++ id ++ js "/reset"; body := [] |}.

(** The history stored for the object [this], as [loadHistory] reads it. *)
Definition storedHistory (this : jsstring) (w : World) : list jsstring :=
  default [] (durable w !! (this, js "history")).

(** The lines of a text: its pieces between line feeds. *)
Definition lines (text : jsstring) : list jsstring := split LF text.

(** The two lines one successful post appends. *)
Definition turn (message reply : jsstring) : list jsstring :=
  [js "User: " ++ message; js "AI: " ++ reply].

(** A text without a line feed, and a path piece without a slash. *)
Definition lacks (c : N) (s : jsstring) : bool :=
  forallb (fun d => negb (d =? c)%N) s.

(** The last two elements of a list, in order. *)
Fixpoint lastTwo {A} (xs : list A) : option (A * A) :=
  match xs with
  | [] | [_] => None
  | [x; y] => Some (x, y)
  | _ :: xs' => lastTwo xs'
  end.

(** The text of a response, when there is one. *)
Definition responseText (c : completion Response) : option jsstring :=
  match c with
  | Return r => Some (resp_body r)
  | Throw _ => None
  end.

(** A request that reaches the POST branch of the handler. *)
Definition isPost (request : Request) : bool :=
  bool_decide (method request = js "POST")
  && negb (endsWith (pathname request) (js "/reset")).

(** A client sending requests to one object one after the other, each
    after the previous response has arrived; the replies are collected. *)
Fixpoint runPosts (env : Env) (this : jsstring) (requests : list Request)
  : Async (list jsstring) :=
  match requests with
  | [] => ret []
  | request :: rest =>
      response <- ChatAgent.fetch env this request ;;
      replies <- runPosts env this rest ;;
      ret (resp_body response :: replies)
  end.

(** The history that messages and their replies make, turn after turn. *)
Fixpoint transcript (messages replies : list jsstring) : list jsstring :=
  match messages, replies with
  | m :: ms, r :: rs => turn m r ++ transcript ms rs
  | _, _ => []
  end.

(** *** Sample states and environments *)

Definition emptyWorld : World := {| durable := ∅; ai_log := [] |}.

(** The object "abc" holds one turn. *)
Definition abcWorld : World :=
  {| durable := {[ (js "abc", js "history") := [js "User: hi"; js "AI: hello"] ]};
     ai_log := [] |}.

(** An environment whose model always completes the same way and whose
    asset fetcher finds nothing. *)
Definition stubEnv (answer : completion JsValue) : Env :=
  {| AI_run := fun _ _ => answer;
     ASSETS_fetch := fun _ => Return {| resp_body := []; status := 404; headers := [] |} |}.

(** A model that answers "r1" to the first call and "r2" afterwards. *)
Definition twoAnswers : Env :=
  {| AI_run := fun log _ =>
       Return (JString (match log with [] => js "r1" | _ => js "r2" end));
     ASSETS_fetch := fun _ => Throw TypeError |}.

(** A text that does not begin with white space (the empty text
    included). *)
Definition startsClean (s : jsstring) : bool :=
  match s with
  | [] => true
  | c :: _ => negb (isWhiteSpace c)
  end.

(* ------------------------------------------------------------------ *)
(** ** The client, [app.js] *)
(* ------------------------------------------------------------------ *)

Module App.

(** [formatTitle(text)]: [length] counts code units, [slice(0, 15)] keeps
    the first fifteen. *)
Definition formatTitle (text : jsstring) : jsstring :=
  if (30 <? length text)%nat then take 15 text ++ js "..." else text.

(** What the loop of [openChat] does with one line. *)
Definition messageOfLine (line : jsstring) : list (jsstring * jsstring) :=
  if startsWith line (js "User: ") then [(js "user", drop 6 line)]
  else if startsWith line (js "AI: ") then [(js "ai", drop 4 line)]
  else [].

(** The [appendMessage(sender, text)] calls of the body of [openChat], in
    order, once [safeFetch] has resolved: [None] is [null]. When
    [safeFetch] resolves to [null] it has shown an error message of its
    own before; that call is made by [safeFetch], not by this body, and
    is not in the list. *)
Definition openChat (historyText : option jsstring) : list (jsstring * jsstring) :=
  match historyText with
  | None => []
  | Some text =>
      if bool_decide (text = []) then []           (* [if (!historyText) return] *)
      else
        let lines :=
          List.filter (fun l => negb (bool_decide (trim l = []))) (split LF text) in
        flat_map messageOfLine lines
  end.

(** One entry of the sidebar's list: [{ id, title, renamed }]. *)
Record Chat := { chat_id : jsstring; title : jsstring; renamed : bool }.

(** [xs.findIndex(p)]: the first index whose element satisfies [p];
    [None] is -1. *)
Fixpoint findIndex {A} (p : A -> bool) (xs : list A) : option nat :=
  match xs with
  | [] => None
  | x :: xs' => if p x then Some 0 else S <$> findIndex p xs'
  end.

Section Chats.

(** [JSON.parse] and [JSON.stringify] on the text of the "chats" item:
    parsing yields a list of chats or throws. *)
Variable JSON_parse : jsstring -> completion (list Chat).
Variable JSON_stringify : list Chat -> jsstring.

(** [localStorage] maps keys to texts. Each function returns the
    [localStorage] it leaves. *)
Definition getChatsSafe (ls : gmap jsstring jsstring)
  : list Chat * gmap jsstring jsstring :=
  let item :=                              (* [getItem("chats") || "[]"] *)
    match ls !! js "chats" with
    | Some text => if bool_decide (text = []) then js "[]" else text
    | None => js "[]"
    end in
  match JSON_parse item with
  | Return chats => (chats, ls)
  | Throw _ => ([], delete (js "chats") ls)
  end.

Definition saveChats (chats : list Chat) (ls : gmap jsstring jsstring)
  : gmap jsstring jsstring :=
  <[js "chats" := JSON_stringify chats]> ls.

(** [{ chats, idx, chat }], with [chat] being [chats[idx]] or [null]. *)
Definition findChatById (id : jsstring) (ls : gmap jsstring jsstring)
  : (list Chat * option nat * option Chat) * gmap jsstring jsstring :=
  let '(chats, ls) := getChatsSafe ls in
  let idx := findIndex (fun c => bool_decide (chat_id c = id)) chats in
  let chat := match idx with Some i => chats !! i | None => None end in
  ((chats, idx, chat), ls).

(** [chat.title = title; chat.renamed = true] on the element at [i]. *)
Definition retitle (newTitle : jsstring) (i : nat) (chats : list Chat) : list Chat :=
  alter (fun c => {| chat_id := chat_id c; title := newTitle; renamed := true |})
    i chats.

Definition renameChat (id newTitle : jsstring) (manual : bool)
    (ls : gmap jsstring jsstring) : gmap jsstring jsstring :=
  let '((chats, idx, chat), ls) := findChatById id ls in
  let chats :=
    match idx with
    | None => chats ++ [{| chat_id := id; title := newTitle; renamed := true |}]
    | Some i =>
        if manual then retitle newTitle i chats
        else if negb (default false (renamed <$> chat)) then retitle newTitle i chats
        else chats
    end in
  saveChats chats ls.

Definition deleteChatLocal (id : jsstring) (ls : gmap jsstring jsstring)
  : gmap jsstring jsstring :=
  let '((chats, idx, _), ls) := findChatById id ls in
  match idx with
  | Some i => saveChats (delete i chats) ls      (* [chats.splice(idx, 1)] *)
  | None => ls
  end.

End Chats.

End App.

(** A codec for examples, standing in for JSON: a list of chats is
    written as one number. *)
#[global] Instance Chat_eq_dec : EqDecision App.Chat.
Proof. solve_decision. Defined.

#[global] Instance Chat_countable : Countable App.Chat :=
  inj_countable'
    (fun c => (App.chat_id c, App.title c, App.renamed c))
    (fun t => {| App.chat_id := t.1.1; App.title := t.1.2; App.renamed := t.2 |})
    (fun c => match c with App.Build_Chat _ _ _ => eq_refl end).

(** [chats.find(c => c.id === id)]: the chat [findChatById] reports. *)
Definition firstChat (id : jsstring) (chats : list App.Chat) : option App.Chat :=
  match App.findIndex (fun c => bool_decide (App.chat_id c = id)) chats with
  | Some i => chats !! i
  | None => None
  end.

Definition sampleStringify (chats : list App.Chat) : jsstring :=
  [Npos (encode chats)].

Definition sampleParse (text : jsstring) : completion (list App.Chat) :=
  match text with
  | [Npos p] =>
      match decode p with
      | Some chats => Return chats
      | None => Throw (External (js "SyntaxError"))
      end
  | _ => Throw (External (js "SyntaxError"))
  end.

(** A sidebar with two chats, and the [localStorage] that holds it. *)
Definition sampleChats : list App.Chat :=
  [ {| App.chat_id := js "k3x9"; App.title := js "What is 2+2?"; App.renamed := true |};
    {| App.chat_id := js "p0q1"; App.title := js "Photosynthesis"; App.renamed := true |} ].

Definition sampleStorage : gmap jsstring jsstring :=
  {[ js "chats" := sampleStringify sampleChats ]}.


(** The messages a transcript stands for: each message of the user
    followed by its reply. *)
Fixpoint dialogue (messages replies : list jsstring) : list (jsstring * jsstring) :=
  match messages, replies with
  | m :: ms, r :: rs => (js "user", m) :: (js "ai", r) :: dialogue ms rs
  | _, _ => []
  end.

(** An asset fetcher that knows one file, "/index.html", and answers 404
    for every other path; and one that always fails. *)
Definition indexOnly : Env :=
  {| AI_run := fun _ _ => Throw TypeError;
     ASSETS_fetch := fun request =>
       if bool_decide (pathname request = js "/index.html")
       then Return {| resp_body := js "<html>"; status := 200; headers := [] |}
       else Return {| resp_body := js "Not found"; status := 404; headers := [] |} |}.

Definition brokenAssets : Env :=
  {| AI_run := fun _ _ => Throw TypeError;
     ASSETS_fetch := fun _ => Throw (External (js "unavailable")) |}.

(* ------------------------------------------------------------------ *)
(** ** Facts about the string operations *)
(* ------------------------------------------------------------------ *)

Lemma startsWith_app (p s : jsstring) : startsWith (p ++ s) p = true.
Proof.
  induction p as [|c p IH]; simpl; [done|].
  by rewrite N.eqb_refl, IH.
Qed.

Lemma endsWith_app (s p : jsstring) : endsWith (s ++ p) p = true.
Proof. unfold endsWith. rewrite rev_app_distr. apply startsWith_app. Qed.

Lemma split_nonempty (sep : N) (s : jsstring) : split sep s <> [].
Proof.
  destruct s as [|c s]; simpl; [done|].
  destruct (c =? sep)%N; [done|]. by destruct (split sep s).
Qed.

Lemma split_app_sep (sep : N) (a b : jsstring) :
  split sep (a ++ sep :: b) = split sep a ++ split sep b.
Proof.
  induction a as [|c a IH]; simpl.
  - by rewrite N.eqb_refl.
  - destruct (c =? sep)%N; rewrite IH; [done|].
    pose proof (split_nonempty sep a) as Hne.
    by destruct (split sep a).
Qed.

Lemma split_lacks (sep : N) (s : jsstring) :
  lacks sep s = true -> split sep s = [s].
Proof.
  induction s as [|c s IH]; simpl; [done|].
  intros [Hc Hs]%andb_prop. rewrite (negb_true_iff _) in Hc.
  by rewrite Hc, IH.
Qed.

Lemma pop_app {A} (xs ys : list A) : ys <> [] -> pop (xs ++ ys) = pop ys.
Proof.
  intros Hys. induction xs as [|x xs IH]; [done|].
  simpl. rewrite IH. destruct (xs ++ ys) eqn:E; [|done].
  by apply app_eq_nil in E as [_ ->].
Qed.

Lemma pop_snoc {A} (xs : list A) (x : A) : pop (xs ++ [x]) = Some x.
Proof. by rewrite pop_app. Qed.

(** The last piece of a path is what follows its last slash. *)
Lemma pop_split_last (front seg : jsstring) :
  lacks SLASH seg = true ->
  pop (split SLASH (front ++ SLASH :: seg)) = Some seg.
Proof.
  intros Hseg. rewrite split_app_sep, (split_lacks _ seg Hseg).
  apply pop_snoc.
Qed.

Lemma join_snoc (sep : jsstring) (xs : list jsstring) (x : jsstring) :
  xs <> [] -> join sep (xs ++ [x]) = join sep xs ++ sep ++ x.
Proof.
  induction xs as [|y xs IH]; [done|]. intros _.
  destruct xs as [|z xs]; [done|].
  change (join sep ((y :: z :: xs) ++ [x]))
    with (y ++ sep ++ join sep ((z :: xs) ++ [x])).
  rewrite IH by done.
  change (join sep (y :: z :: xs)) with (y ++ sep ++ join sep (z :: xs)).
  by rewrite <- !app_assoc.
Qed.

Lemma lacks_app (c : N) (a b : jsstring) :
  lacks c (a ++ b) = lacks c a && lacks c b.
Proof. apply forallb_app. Qed.

(* ------------------------------------------------------------------ *)
(** ** How the methods run *)
(* ------------------------------------------------------------------ *)

Section Runs.

Variables (env : Env) (this : jsstring).

Lemma loadHistory_run (w : World) :
  ChatAgent.loadHistory this w = (Return (storedHistory this w), w).
Proof.
  unfold ChatAgent.loadHistory, storedHistory, bind, storage_get, ret.
  by destruct (durable w !! (this, js "history")).
Qed.

Lemma storedHistory_insert (h : list jsstring)
    (d : gmap (jsstring * jsstring) (list jsstring)) (log : list AiCall) :
  storedHistory this {| durable := <[(this, js "history") := h]> d; ai_log := log |} = h.
Proof. unfold storedHistory. simpl. by rewrite lookup_insert_eq. Qed.

Lemma storedHistory_delete
    (d : gmap (jsstring * jsstring) (list jsstring)) (log : list AiCall) :
  storedHistory this {| durable := delete (this, js "history") d; ai_log := log |} = [].
Proof. unfold storedHistory. simpl. by rewrite lookup_delete_eq. Qed.

(** The reset branch, whatever the method. *)
Lemma fetch_reset (request : Request) (w : World) :
  endsWith (pathname request) (js "/reset") = true ->
  ChatAgent.fetch env this request w =
    (Return {| resp_body := ChatAgent.clearedText; status := 200;
               headers := ChatAgent.textPlain |},
     {| durable := delete (this, js "history") (durable w); ai_log := ai_log w |}).
Proof. intros H. unfold ChatAgent.fetch. by rewrite H. Qed.

(** The GET branch. *)
Lemma fetch_get (request : Request) (w : World) :
  endsWith (pathname request) (js "/reset") = false ->
  method request = js "GET" ->
  ChatAgent.fetch env this request w =
    (Return {| resp_body := join [LF] (storedHistory this w); status := 200;
               headers := ChatAgent.textPlain |}, w).
Proof.
  intros Hp Hm. unfold ChatAgent.fetch. rewrite Hp, Hm. simpl.
  unfold bind. by rewrite loadHistory_run.
Qed.

(** A chat route goes to the object named by the last piece of the path. *)
Lemma Worker_fetch_chat (request : Request) (w : World) (front seg : jsstring) :
  startsWith (pathname request) (js "/chat/") = true ->
  includes [js "POST"; js "GET"] (method request) = true ->
  pathname request = front ++ SLASH :: seg ->
  lacks SLASH seg = true ->
  Worker.fetch env request w = ChatAgent.fetch env seg request w.
Proof.
  intros Hs Hm Hp Hseg. unfold Worker.fetch. rewrite Hs, Hm. simpl.
  by rewrite Hp, pop_split_last.
Qed.

(** What extraction does, shape by shape; it never touches the state. *)
Lemma extractReply_cases (v : JsValue) (w : World) :
  ChatAgent.extractReply v w =
    (match v with
     | JString s => Return (trim s)
     | JObject props =>
         if hasProperty (js "response") v then
           match lookupProperty (js "response") props with
           | JString s => Return (trim s)
           | _ => Throw TypeError
           end
         else Return ChatAgent.fallbackReply
     | _ => Return ChatAgent.fallbackReply
     end, w).
Proof.
  destruct v as [| |b|n|s|props]; try reflexivity.
  - by destruct b.
  - by destruct n.
  - unfold ChatAgent.extractReply.
    change (bool_decide (typeof (JObject props) = js "string")) with false.
    change (truthy (JObject props)
            && bool_decide (typeof (JObject props) = js "object")) with true.
    cbv iota. rewrite andb_true_l.
    destruct (hasProperty (js "response") (JObject props)); [|done].
    unfold bind, ChatAgent.getProperty, ret.
    by destruct (lookupProperty (js "response") props).
Qed.

Lemma extractReply_run (v : JsValue) (w w0 : World) :
  ChatAgent.extractReply v w = (fst (ChatAgent.extractReply v w0), w).
Proof. by rewrite !extractReply_cases. Qed.

Lemma getAIResponse_run (prompt : jsstring) (history : list jsstring) (w : World) :
  ChatAgent.getAIResponse env prompt history w =
    let call := ChatAgent.modelRequest prompt history in
    let w1 := {| durable := durable w; ai_log := ai_log w ++ [call] |} in
    match AI_run env (ai_log w) call with
    | Return v => ChatAgent.extractReply v w1
    | Throw e => (Throw e, w1)
    end.
Proof.
  unfold ChatAgent.getAIResponse, bind, ai_run. simpl.
  by destruct (AI_run env (ai_log w) _).
Qed.

Lemma getAIResponse_world (prompt : jsstring) (history : list jsstring) (w : World) :
  snd (ChatAgent.getAIResponse env prompt history w) =
    {| durable := durable w;
       ai_log := ai_log w ++ [ChatAgent.modelRequest prompt history] |}.
Proof.
  rewrite getAIResponse_run. simpl.
  destruct (AI_run env (ai_log w) _) as [v|e]; [|done].
  by rewrite (extractReply_run v _ emptyWorld).
Qed.

(** The POST branch: read, generate, then write both lines at once. *)
Lemma fetch_post (request : Request) (w : World) :
  isPost request = true ->
  ChatAgent.fetch env this request w =
    let history := storedHistory this w in
    let w1 := {| durable := durable w;
                 ai_log := ai_log w ++ [ChatAgent.modelRequest (body request) history] |} in
    match fst (ChatAgent.getAIResponse env (body request) history w) with
    | Return reply =>
        (Return {| resp_body := reply; status := 200; headers := ChatAgent.textPlain |},
         {| durable := <[(this, js "history") := history ++ turn (body request) reply]>
                         (durable w);
            ai_log := ai_log w1 |})
    | Throw e => (Throw e, w1)
    end.
Proof.
  intros [Hm Hp]%andb_prop. apply bool_decide_eq_true in Hm.
  apply negb_true_iff in Hp.
  unfold ChatAgent.fetch. rewrite Hp, Hm. simpl.
  unfold bind at 1. rewrite loadHistory_run.
  unfold bind at 1.
  pose proof (getAIResponse_world (body request) (storedHistory this w) w) as Hw.
  destruct (ChatAgent.getAIResponse env (body request) (storedHistory this w) w)
    as [[reply|e] w1]; simpl in *; subst w1.
  - done.
  - done.
Qed.

(** Reset and then get, on one and the same object: the text is empty. *)
Lemma fetch_reset_then_get (resetReq getReq : Request) (w : World) :
  endsWith (pathname resetReq) (js "/reset") = true ->
  endsWith (pathname getReq) (js "/reset") = false ->
  method getReq = js "GET" ->
  responseText
    (fst (ChatAgent.fetch env this getReq (snd (ChatAgent.fetch env this resetReq w))))
  = Some [].
Proof.
  intros Hreset Hpath Hget.
  rewrite (fetch_reset _ _ Hreset), fetch_get by done.
  cbn [fst snd responseText resp_body]. by rewrite storedHistory_delete.
Qed.

End Runs.

(** Unfold a post that is known to reach the POST branch. *)
Ltac run_post H := rewrite (fetch_post _ _ _ _ H) in *; cbv zeta in *.

(* ------------------------------------------------------------------ *)
(** ** The store *)
(* ------------------------------------------------------------------ *)

(** C8. Loading the history of an object nothing was ever stored for
    returns the empty array, not an error; and from any state, with or
    without a stored history, clearing succeeds and a load right after
    returns the empty array. *)
Theorem load_and_clear_at_the_store (this : jsstring) (w : World) :
  (durable w !! (this, js "history") = None ->
   ChatAgent.loadHistory this w = (Return [], w))
  /\ (exists w',
        ChatAgent.clearHistory this w = (Return tt, w')
        /\ ChatAgent.loadHistory this w' = (Return [], w')).
Proof.
  split.
  - intros Hnone. rewrite loadHistory_run. unfold storedHistory.
    by rewrite Hnone.
  - eexists. split; [reflexivity|].
    by rewrite loadHistory_run, storedHistory_delete.
Qed.

Lemma load_and_clear_at_the_store_witness :
  ChatAgent.loadHistory (js "abc") emptyWorld = (Return [], emptyWorld).
Proof.
  apply (proj1 (load_and_clear_at_the_store (js "abc") emptyWorld)).
  reflexivity.
Defined.

(* ------------------------------------------------------------------ *)
(** ** Routing and the reset branch *)
(* ------------------------------------------------------------------ *)

(** C10. In the handler the reset branch is chosen by the path suffix
    alone, before the method is looked at: any request whose path ends in
    "/reset", a GET included, deletes the stored history and is answered
    with the acknowledgement text; no history is returned and the model is
    not called. *)
Theorem reset_branch_ignores_method
    (env : Env) (this : jsstring) (request : Request) (w : World) :
  endsWith (pathname request) (js "/reset") = true ->
  let w' := snd (ChatAgent.fetch env this request w) in
  fst (ChatAgent.fetch env this request w) =
    Return {| resp_body := [9989%N] ++ js " Chat history cleared.";
              status := 200;
              headers := [(js "content-type", js "text/plain")] |}
  /\ durable w' = delete (this, js "history") (durable w)
  /\ storedHistory this w' = []
  /\ ai_log w' = ai_log w.
Proof.
  intros Hreset w'. subst w'. rewrite (fetch_reset _ _ _ _ Hreset).
  cbn [fst snd durable ai_log]. repeat split.
  apply storedHistory_delete.
Qed.

Lemma reset_branch_ignores_method_witness :
  fst (ChatAgent.fetch (stubEnv (Throw TypeError)) (js "abc")
         {| method := js "GET"; pathname := js "/chat/abc/reset"; body := [] |}
         abcWorld) =
    Return {| resp_body := [9989%N] ++ js " Chat history cleared.";
              status := 200;
              headers := [(js "content-type", js "text/plain")] |}
  /\ storedHistory (js "abc")
       (snd (ChatAgent.fetch (stubEnv (Throw TypeError)) (js "abc")
               {| method := js "GET"; pathname := js "/chat/abc/reset"; body := [] |}
               abcWorld)) = [].
Proof.
  pose proof (reset_branch_ignores_method (stubEnv (Throw TypeError)) (js "abc")
                {| method := js "GET"; pathname := js "/chat/abc/reset"; body := [] |}
                abcWorld eq_refl) as (Hack & _ & Hcleared & _).
  exact (conj Hack Hcleared).
Defined.

(** Requests that are not chat requests never reach a Durable Object. *)
Lemma Worker_fetch_assets (env : Env) (request : Request) (w : World) :
  startsWith (pathname request) (js "/chat/")
  && includes [js "POST"; js "GET"] (method request) = false ->
  snd (Worker.fetch env request w) = w.
Proof.
  intros Hno. unfold Worker.fetch. rewrite Hno.
  unfold try_catch, bind, assets_fetch, ret.
  destruct (ASSETS_fetch env request) as [asset|e]; [|done].
  destruct (status asset =? 404)%Z; [|done].
  destruct (_ || _); [|done].
  by destruct (ASSETS_fetch env (Worker.indexRequest request)).
Qed.




(** A get or a post for a conversation whose id has no slash reaches
    the object named by the id. *)
Lemma Worker_fetch_conversation (env : Env) (request : Request) (id : jsstring)
    (w : World) :
  includes [js "POST"; js "GET"] (method request) = true ->
  pathname request = js "/chat/" ++ id ->
  lacks SLASH id = true ->
  Worker.fetch env request w = ChatAgent.fetch env id request w.
Proof.
  intros Hm Hp Hid.
  apply (Worker_fetch_chat env request w (js "/chat") id); try done.
  rewrite Hp. apply startsWith_app.
Qed.

(** Hence a reset request for any conversation leaves the storage of
    every object other than "reset" as it was. *)
Lemma resetRequest_leaves_other_objects
    (env : Env) (request : Request) (id this key : jsstring) (w : World) :
  includes [js "POST"; js "GET"] (method request) = true ->
  pathname request = js "/chat/" ++ id ++ js "/reset" ->
  this <> js "reset" ->
  durable (snd (Worker.fetch env request w)) !! (this, key)
  = durable w !! (this, key).
Proof.
  intros Hm Hp Hne.
  rewrite (Worker_fetch_chat env request w (js "/chat/" ++ id) (js "reset"));
    [|rewrite Hp; apply startsWith_app|done|by rewrite Hp, <- app_assoc|done].
  rewrite fetch_reset by (rewrite Hp; apply (endsWith_app (js "/chat/" ++ id))).
  cbn [snd durable]. apply lookup_delete_ne. congruence.
Qed.

(** C1. Where the claim fails: the object "abc" holds one turn; after
    POST /chat/abc/reset, GET /chat/abc still returns that turn, because
    the reset went to the object named "reset". *)
Theorem reset_then_get_still_returns_history (env : Env) :
  let w1 := snd (Worker.fetch env (resetRequest (js "abc")) abcWorld) in
  responseText (fst (Worker.fetch env (getRequest (js "abc")) w1))
  = Some (js "User: hi" ++ [LF] ++ js "AI: hello")
  /\ storedHistory (js "abc") w1 = [js "User: hi"; js "AI: hello"].
Proof. split; reflexivity. Qed.

(* ------------------------------------------------------------------ *)
(** ** The reply generator *)
(* ------------------------------------------------------------------ *)

(** C7. For every history and message, [getAIResponse] makes exactly one
    call to the model: the log of calls grows by one entry, whose messages
    are the fixed system instruction and one user message holding the
    prior lines followed by "User: <message>", joined by line feeds, and
    whose [max_tokens] is 50. Storage is not touched. *)
Theorem one_model_request_per_reply
    (env : Env) (prompt : jsstring) (history : list jsstring) (w : World) :
  let w' := snd (ChatAgent.getAIResponse env prompt history w) in
  ai_log w' =
    ai_log w ++
    [ {| model := js "@cf/meta/llama-3.3-70b-instruct-fp8-fast";
         messages :=
           [ {| role := js "system"; content := ChatAgent.systemPrompt |};
             {| role := js "user";
                content := join [LF] (history ++ [js "User: " ++ prompt]) |} ];
         max_tokens := 50 |} ]
  /\ durable w' = durable w.
Proof. intros w'. subst w'. by rewrite getAIResponse_world. Qed.

(** C4. Where the claim fails: a result object whose [response] is not a
    string ([null], a number) makes [.trim()] throw a TypeError instead of
    falling back. *)
Theorem extraction_throws_on_non_string_response (w : World) :
  ChatAgent.extractReply (JObject [(js "response", JNull)]) w = (Throw TypeError, w)
  /\ ChatAgent.extractReply (JObject [(js "response", JNumber 42)]) w
     = (Throw TypeError, w)
  /\ fst (ChatAgent.getAIResponse
            (stubEnv (Return (JObject [(js "response", JNull)]))) (js "hi") [] w)
     = Throw TypeError.
Proof. repeat split; by rewrite ?getAIResponse_run, extractReply_cases. Qed.

(** Extraction does return a string for every other shape. *)
Lemma extraction_returns_otherwise (v : JsValue) (w : World) :
  (forall props, v = JObject props ->
     hasProperty (js "response") v = true ->
     exists s, lookupProperty (js "response") props = JString s) ->
  exists reply, ChatAgent.extractReply v w = (Return reply, w).
Proof.
  intros Hresp. rewrite extractReply_cases.
  destruct v as [| |b|n|s|props]; try by eexists.
  specialize (Hresp props eq_refl).
  destruct (hasProperty _ _); [|by eexists].
  destruct (Hresp eq_refl) as [s ->]. by eexists.
Qed.

(** C3, as the claim states it, fails: with a model that answers [null]
    the reply is not the text with the ASCII apostrophe (U+0027). *)
Lemma fallback_is_not_the_ascii_text :
  AI_run (stubEnv (Return JNull)) [] (ChatAgent.modelRequest (js "hi") []) = Return JNull
  /\ bool_decide (typeof JNull = js "string") = false
  /\ hasProperty (js "response") JNull = false
  /\ fst (ChatAgent.getAIResponse (stubEnv (Return JNull)) (js "hi") [] emptyWorld)
     <> Return (js "Sorry, I couldn't generate a reply.").
Proof. repeat split. vm_compute. discriminate. Qed.

(** C3, amended. When the model's result is neither a string nor an object
    with a [response] property, the reply is "Sorry, I couldn’t generate a
    reply." with the apostrophe U+2019, and a post persists it as the
    assistant's line. *)
Theorem unrecognized_shape_gives_fallback
    (env : Env) (this : jsstring) (request : Request) (w : World) (v : JsValue) :
  isPost request = true ->
  AI_run env (ai_log w)
    (ChatAgent.modelRequest (body request) (storedHistory this w)) = Return v ->
  bool_decide (typeof v = js "string") = false ->
  hasProperty (js "response") v = false ->
  let fallback := js "Sorry, I couldn" ++ [8217%N] ++ js "t generate a reply." in
  fst (ChatAgent.getAIResponse env (body request) (storedHistory this w) w)
    = Return fallback
  /\ responseText (fst (ChatAgent.fetch env this request w)) = Some fallback
  /\ storedHistory this (snd (ChatAgent.fetch env this request w))
     = storedHistory this w ++ [js "User: " ++ body request; js "AI: " ++ fallback].
Proof.
  intros Hpost Hrun Hstr Hresp fallback.
  assert (Hreply : fst (ChatAgent.getAIResponse env (body request)
                          (storedHistory this w) w) = Return fallback).
  { rewrite getAIResponse_run. cbv zeta. rewrite Hrun, extractReply_cases.
    destruct v as [| |b|n|s|props]; try done.
    cbn [fst]. by rewrite Hresp. }
  split; [done|].
  run_post Hpost. rewrite Hreply.
  split; [done|]. apply storedHistory_insert.
Qed.

Lemma unrecognized_shape_gives_fallback_witness :
  responseText
    (fst (ChatAgent.fetch (stubEnv (Return JNull)) (js "abc")
            (postRequest (js "abc") (js "hi")) emptyWorld))
  = Some (js "Sorry, I couldn" ++ [8217%N] ++ js "t generate a reply.").
Proof.
  apply (unrecognized_shape_gives_fallback (stubEnv (Return JNull)) (js "abc")
           (postRequest (js "abc") (js "hi")) emptyWorld JNull);
    reflexivity.
Defined.

(* ------------------------------------------------------------------ *)
(** ** Posting *)
(* ------------------------------------------------------------------ *)

(** Whatever makes reply generation throw, the post throws the same and
    storage is as before. *)
Lemma failed_reply_appends_nothing
    (env : Env) (this : jsstring) (request : Request) (w : World) (e : Exn) :
  isPost request = true ->
  fst (ChatAgent.getAIResponse env (body request) (storedHistory this w) w) = Throw e ->
  fst (ChatAgent.fetch env this request w) = Throw e
  /\ durable (snd (ChatAgent.fetch env this request w)) = durable w.
Proof.
  intros Hpost Hfail. run_post Hpost. by rewrite Hfail.
Qed.

(** C2. If the model call of a post throws, the post throws, nothing is
    written (the user line neither), and a get afterwards returns what a
    get before the attempt returns. *)
Theorem failed_generation_appends_nothing
    (env : Env) (this : jsstring) (request getReq : Request) (w : World) (e : Exn) :
  isPost request = true ->
  AI_run env (ai_log w)
    (ChatAgent.modelRequest (body request) (storedHistory this w)) = Throw e ->
  method getReq = js "GET" ->
  endsWith (pathname getReq) (js "/reset") = false ->
  let w' := snd (ChatAgent.fetch env this request w) in
  fst (ChatAgent.fetch env this request w) = Throw e
  /\ durable w' = durable w
  /\ storedHistory this w' = storedHistory this w
  /\ fst (ChatAgent.fetch env this getReq w') = fst (ChatAgent.fetch env this getReq w).
Proof.
  intros Hpost Hthrow Hget Hpath w'.
  destruct (failed_reply_appends_nothing env this request w e Hpost) as [Hout Hsame].
  { rewrite getAIResponse_run. cbv zeta. by rewrite Hthrow. }
  assert (Hhist : storedHistory this w' = storedHistory this w)
    by (unfold storedHistory; subst w'; by rewrite Hsame).
  repeat split; try done.
  rewrite !fetch_get by done. cbn [fst]. by rewrite Hhist.
Qed.

Lemma failed_generation_appends_nothing_witness :
  let env := stubEnv (Throw (External (js "timeout"))) in
  let w' := snd (ChatAgent.fetch env (js "abc") (postRequest (js "abc") (js "more")) abcWorld) in
  fst (ChatAgent.fetch env (js "abc") (postRequest (js "abc") (js "more")) abcWorld)
    = Throw (External (js "timeout"))
  /\ durable w' = durable abcWorld
  /\ storedHistory (js "abc") w' = storedHistory (js "abc") abcWorld
  /\ fst (ChatAgent.fetch env (js "abc") (getRequest (js "abc")) w')
     = fst (ChatAgent.fetch env (js "abc") (getRequest (js "abc")) abcWorld).
Proof.
  apply (failed_generation_appends_nothing
           (stubEnv (Throw (External (js "timeout")))) (js "abc")
           (postRequest (js "abc") (js "more")) (getRequest (js "abc")) abcWorld
           (External (js "timeout")));
    reflexivity.
Defined.

Lemma lastTwo_app {A} (xs : list A) (a b : A) : lastTwo (xs ++ [a; b]) = Some (a, b).
Proof.
  induction xs as [|x xs IH]; [done|].
  change ((x :: xs) ++ [a; b]) with (x :: (xs ++ [a; b])).
  destruct (xs ++ [a; b]) as [|y [|z l]] eqn:E.
  - by apply app_eq_nil in E as [_ ?].
  - apply (f_equal length) in E. rewrite length_app in E. simpl in E. lia.
  - exact IH.
Qed.

(** The text of a history that ends with a turn. *)
Lemma join_turn (h : list jsstring) (u a : jsstring) :
  exists front, join [LF] (h ++ [u; a]) = front ++ u ++ [LF] ++ a
                /\ lines (front ++ u ++ [LF] ++ a)
                   = match h with [] => [] | _ => lines (join [LF] h) end
                     ++ lines u ++ lines a.
Proof.
  destruct h as [|x h].
  - exists []. split; [done|]. unfold lines. cbn [app].
    by rewrite (split_app_sep LF u a).
  - exists (join [LF] (x :: h) ++ [LF]). split.
    + change ((x :: h) ++ [u; a]) with ((x :: h) ++ [u] ++ [a]).
      rewrite app_assoc, !join_snoc by done.
      by rewrite <- !app_assoc.
    + unfold lines. rewrite <- app_assoc. cbn [app].
      by rewrite !split_app_sep.
Qed.

(** C5, as the claim states it, fails: for a message of two lines the
    line before the last line of the text is the message's second line,
    not "User: <message>". *)
Lemma multiline_message_breaks_the_line_claim :
  let env := stubEnv (Return (JString (js "ok"))) in
  let m := js "a" ++ [LF] ++ js "b" in
  let w' := snd (ChatAgent.fetch env (js "abc") (postRequest (js "abc") m) emptyWorld) in
  responseText (fst (ChatAgent.fetch env (js "abc") (postRequest (js "abc") m) emptyWorld))
    = Some (js "ok")
  /\ exists text,
       responseText (fst (ChatAgent.fetch env (js "abc") (getRequest (js "abc")) w'))
         = Some text
       /\ lines text = [js "User: a"; js "b"; js "AI: ok"]
       /\ lastTwo (lines text) <> Some (js "User: " ++ m, js "AI: " ++ js "ok").
Proof.
  split; [reflexivity|]. eexists. split; [reflexivity|].
  split; [reflexivity|]. vm_compute. discriminate.
Qed.

(** C5, amended. A successful post returns the reply it obtained from the
    reply generator, and a get afterwards returns the earlier lines
    followed by "User: <m>" and "AI: <r>", joined by line feeds: the text
    ends with "User: <m>", a line feed and "AI: <r>". When neither m nor r
    contains a line feed, these are the last two lines of the text. *)
Theorem post_then_get_ends_with_the_turn
    (env : Env) (this : jsstring) (request getReq : Request) (w : World)
    (resp : Response) :
  isPost request = true ->
  fst (ChatAgent.fetch env this request w) = Return resp ->
  method getReq = js "GET" ->
  endsWith (pathname getReq) (js "/reset") = false ->
  let m := body request in
  let r := resp_body resp in
  let w' := snd (ChatAgent.fetch env this request w) in
  fst (ChatAgent.getAIResponse env m (storedHistory this w) w) = Return r
  /\ exists text,
       responseText (fst (ChatAgent.fetch env this getReq w')) = Some text
       /\ text = join [LF] (storedHistory this w ++ [js "User: " ++ m; js "AI: " ++ r])
       /\ endsWith text (js "User: " ++ m ++ [LF] ++ js "AI: " ++ r) = true
       /\ (lacks LF m = true -> lacks LF r = true ->
           lastTwo (lines text) = Some (js "User: " ++ m, js "AI: " ++ r)).
Proof.
  intros Hpost Hok Hget Hpath m r w'. subst w'.
  run_post Hpost.
  destruct (fst (ChatAgent.getAIResponse env (body request) (storedHistory this w) w))
    as [reply|e] eqn:Hreply; [|done].
  cbn [fst snd] in *. injection Hok as <-. subst m r. cbn [resp_body].
  split; [done|].
  eexists. split; [|split; [reflexivity|]].
  { rewrite fetch_get by done. cbn [fst responseText resp_body].
    by rewrite storedHistory_insert. }
  destruct (join_turn (storedHistory this w) (js "User: " ++ body request)
              (js "AI: " ++ reply)) as (front & Htext & Hlines).
  unfold turn. rewrite Htext. split.
  - rewrite <- (app_assoc (js "User: ")). apply endsWith_app.
  - intros Hm Hr. rewrite Hlines. unfold lines at 2 3.
    rewrite !split_lacks.
    + apply (lastTwo_app _ (js "User: " ++ body request) (js "AI: " ++ reply)).
    + by rewrite lacks_app, Hr.
    + by rewrite lacks_app, Hm.
Qed.

Lemma post_then_get_ends_with_the_turn_witness :
  let env := stubEnv (Return (JString (js " 4 "))) in
  let request := postRequest (js "abc123") (js "What is 2+2?") in
  let w' := snd (ChatAgent.fetch env (js "abc123") request emptyWorld) in
  exists text,
    responseText (fst (ChatAgent.fetch env (js "abc123") (getRequest (js "abc123")) w'))
      = Some text
    /\ text = js "User: What is 2+2?" ++ [LF] ++ js "AI: 4"
    /\ lastTwo (lines text) = Some (js "User: What is 2+2?", js "AI: 4").
Proof.
  destruct (post_then_get_ends_with_the_turn
              (stubEnv (Return (JString (js " 4 ")))) (js "abc123")
              (postRequest (js "abc123") (js "What is 2+2?"))
              (getRequest (js "abc123")) emptyWorld
              {| resp_body := js "4"; status := 200; headers := ChatAgent.textPlain |}
              eq_refl eq_refl eq_refl eq_refl)
    as (_ & text & Htext & Heq & _ & Hlast).
  exists text. split; [exact Htext|]. split; [exact Heq|].
  exact (Hlast eq_refl eq_refl).
Defined.

Lemma length_transcript (messages replies : list jsstring) :
  length replies = length messages ->
  length (transcript messages replies) = 2 * length messages.
Proof.
  revert replies. induction messages as [|m ms IH]; intros [|r rs] Hlen;
    simpl in *; try done.
  rewrite IH by lia. lia.
Qed.

(** Each post of a sequence appends its own turn after what is there. *)
Lemma runPosts_appends (env : Env) (this : jsstring) (requests : list Request) :
  forall (w w' : World) (replies : list jsstring),
    forallb isPost requests = true ->
    runPosts env this requests w = (Return replies, w') ->
    length replies = length requests
    /\ storedHistory this w'
       = storedHistory this w ++ transcript (map body requests) replies.
Proof.
  induction requests as [|request rest IH]; intros w w' replies Hposts Hrun.
  - injection Hrun as <- <-. by rewrite app_nil_r.
  - apply andb_prop in Hposts as [Hpost Hrest].
    cbn [runPosts] in Hrun. unfold bind at 1 in Hrun.
    rewrite (fetch_post _ _ _ _ Hpost) in Hrun. cbv zeta in Hrun.
    destruct (fst (ChatAgent.getAIResponse env (body request)
                     (storedHistory this w) w)) as [reply|e]; [|done].
    unfold bind at 1 in Hrun.
    match type of Hrun with
    | context [runPosts env this rest ?w1] =>
        destruct (runPosts env this rest w1) as [[replies'|e] w2] eqn:Hrec;
        [|done]; specialize (IH w1 w2 replies' Hrest Hrec) as [Hlen Hhist]
    end.
    injection Hrun as <- <-.
    rewrite storedHistory_insert in Hhist.
    split; [simpl; by rewrite Hlen|].
    rewrite Hhist. cbn [map transcript resp_body]. by rewrite <- app_assoc.
Qed.

(** C6. N successful posts sent one after the other to the same object
    leave the earlier lines in place and append, in order, "User: m1",
    "AI: r1", ..., "User: mN", "AI: rN"; starting from an empty
    conversation the stored history is exactly these 2N lines. *)
Theorem sequential_posts_keep_order
    (env : Env) (this : jsstring) (requests : list Request)
    (w w' : World) (replies : list jsstring) :
  forallb isPost requests = true ->
  runPosts env this requests w = (Return replies, w') ->
  length replies = length requests
  /\ storedHistory this w'
     = storedHistory this w ++ transcript (map body requests) replies
  /\ (storedHistory this w = [] ->
      storedHistory this w' = transcript (map body requests) replies
      /\ length (storedHistory this w') = 2 * length requests).
Proof.
  intros Hposts Hrun.
  destruct (runPosts_appends env this requests w w' replies Hposts Hrun)
    as [Hlen Hhist].
  split; [done|]. split; [done|]. intros Hempty.
  rewrite Hhist, Hempty. split; [done|].
  cbn [app]. rewrite length_transcript; by rewrite ?length_map.
Qed.

Lemma sequential_posts_keep_order_witness :
  exists w',
    runPosts twoAnswers (js "abc")
      [postRequest (js "abc") (js "m1"); postRequest (js "abc") (js "m2")] emptyWorld
      = (Return [js "r1"; js "r2"], w')
    /\ storedHistory (js "abc") w'
       = [js "User: m1"; js "AI: r1"; js "User: m2"; js "AI: r2"]
    /\ length (storedHistory (js "abc") w') = 2 * 2.
Proof.
  eexists. split; [vm_compute; reflexivity|].
  apply (sequential_posts_keep_order twoAnswers (js "abc")
           [postRequest (js "abc") (js "m1"); postRequest (js "abc") (js "m2")]
           emptyWorld _ [js "r1"; js "r2"]);
    reflexivity.
Defined.

(** When the model answers every call with a string, every post of a
    sequence succeeds. *)
Lemma runPosts_returns (env : Env) (this : jsstring) (requests : list Request) :
  (forall log call, exists s, AI_run env log call = Return (JString s)) ->
  forallb isPost requests = true ->
  forall w, exists replies w', runPosts env this requests w = (Return replies, w').
Proof.
  intros Hmodel. induction requests as [|request rest IH]; intros Hposts w.
  - by exists [], w.
  - apply andb_prop in Hposts as [Hpost Hrest].
    cbn [runPosts]. unfold bind at 1.
    rewrite (fetch_post _ _ _ _ Hpost). cbv zeta.
    rewrite getAIResponse_run. cbv zeta.
    destruct (Hmodel (ai_log w)
                (ChatAgent.modelRequest (body request) (storedHistory this w)))
      as [s ->].
    rewrite extractReply_cases. cbn [fst]. unfold bind at 1.
    match goal with
    | |- context [runPosts env this rest ?w1] =>
        destruct (IH Hrest w1) as (replies & w2 & ->)
    end.
    by eexists _, _.
Qed.

(* ------------------------------------------------------------------ *)
(** ** Further properties of the store *)
(* ------------------------------------------------------------------ *)

(** The four branches of the handler, each with the state it leaves. *)
Lemma fetch_run (env : Env) (this : jsstring) (request : Request) (w : World) :
  ChatAgent.fetch env this request w =
    if endsWith (pathname request) (js "/reset") then
      (Return {| resp_body := ChatAgent.clearedText; status := 200;
                 headers := ChatAgent.textPlain |},
       {| durable := delete (this, js "history") (durable w); ai_log := ai_log w |})
    else if bool_decide (method request = js "POST") then
      let history := storedHistory this w in
      let log := ai_log w ++ [ChatAgent.modelRequest (body request) history] in
      match fst (ChatAgent.getAIResponse env (body request) history w) with
      | Return reply =>
          (Return {| resp_body := reply; status := 200; headers := ChatAgent.textPlain |},
           {| durable := <[(this, js "history") := history ++ turn (body request) reply]>
                           (durable w);
              ai_log := log |})
      | Throw e => (Throw e, {| durable := durable w; ai_log := log |})
      end
    else if bool_decide (method request = js "GET") then
      (Return {| resp_body := join [LF] (storedHistory this w); status := 200;
                 headers := ChatAgent.textPlain |}, w)
    else
      (Return {| resp_body := js "ChatAgent ready (send POST data)"; status := 200;
                 headers := [] |}, w).
Proof.
  destruct (endsWith (pathname request) (js "/reset")) eqn:Hreset.
  { by apply fetch_reset. }
  destruct (bool_decide (method request = js "POST")) eqn:Hpost.
  { apply fetch_post. unfold isPost. by rewrite Hpost, Hreset. }
  destruct (bool_decide (method request = js "GET")) eqn:Hget.
  { apply fetch_get; [done|]. by apply bool_decide_eq_true in Hget. }
  unfold ChatAgent.fetch. by rewrite Hreset, Hpost, Hget.
Qed.

(** X1. What [saveHistory] stores is what [loadHistory] returns next,
    whatever was stored before; of two saves the later one is kept. *)
Theorem saved_history_is_loaded_back
    (this : jsstring) (first second : list jsstring) (w : World) :
  let w1 := snd (ChatAgent.saveHistory this first w) in
  let w2 := snd (ChatAgent.saveHistory this second w1) in
  ChatAgent.saveHistory this first w = (Return tt, w1)
  /\ ChatAgent.loadHistory this w1 = (Return first, w1)
  /\ ChatAgent.loadHistory this w2 = (Return second, w2).
Proof.
  cbv zeta. rewrite !loadHistory_run.
  unfold ChatAgent.saveHistory, storage_put. cbn [snd durable ai_log].
  by rewrite !storedHistory_insert.
Qed.

(** X2. Storage is per object: saving or clearing the history of one
    object leaves what every other object loads as it was. *)
Theorem other_objects_load_the_same
    (this other : jsstring) (h : list jsstring) (w : World) :
  other <> this ->
  fst (ChatAgent.loadHistory other (snd (ChatAgent.saveHistory this h w)))
    = fst (ChatAgent.loadHistory other w)
  /\ fst (ChatAgent.loadHistory other (snd (ChatAgent.clearHistory this w)))
     = fst (ChatAgent.loadHistory other w).
Proof.
  intros Hother. rewrite !loadHistory_run. cbn [fst].
  unfold storedHistory, ChatAgent.saveHistory, ChatAgent.clearHistory,
    storage_put, storage_delete.
  cbn [snd durable].
  rewrite lookup_insert_ne, lookup_delete_ne by congruence. done.
Qed.

Lemma other_objects_load_the_same_witness :
  fst (ChatAgent.loadHistory (js "abc")
         (snd (ChatAgent.saveHistory (js "xyz") [js "User: x"] abcWorld)))
    = fst (ChatAgent.loadHistory (js "abc") abcWorld)
  /\ fst (ChatAgent.loadHistory (js "abc")
            (snd (ChatAgent.clearHistory (js "xyz") abcWorld)))
     = fst (ChatAgent.loadHistory (js "abc") abcWorld).
Proof.
  apply (other_objects_load_the_same (js "xyz") (js "abc") [js "User: x"] abcWorld).
  discriminate.
Defined.

(* ------------------------------------------------------------------ *)
(** ** Further properties of the handler *)
(* ------------------------------------------------------------------ *)

(** X3. A request that is neither a POST nor a reset changes nothing and
    is always answered: a GET, and any other method, leaves storage and
    the log of model calls exactly as they were. *)
Theorem only_posts_and_resets_change_state
    (env : Env) (this : jsstring) (request : Request) (w : World) :
  endsWith (pathname request) (js "/reset") = false ->
  bool_decide (method request = js "POST") = false ->
  snd (ChatAgent.fetch env this request w) = w
  /\ exists response, fst (ChatAgent.fetch env this request w) = Return response.
Proof.
  intros Hreset Hpost. rewrite fetch_run, Hreset, Hpost.
  destruct (bool_decide (method request = js "GET")); split; by eauto.
Qed.

Lemma only_posts_and_resets_change_state_witness :
  snd (ChatAgent.fetch (stubEnv (Throw TypeError)) (js "abc")
         {| method := js "PUT"; pathname := js "/chat/abc"; body := js "x" |} abcWorld)
    = abcWorld
  /\ exists response,
       fst (ChatAgent.fetch (stubEnv (Throw TypeError)) (js "abc")
              {| method := js "PUT"; pathname := js "/chat/abc"; body := js "x" |}
              abcWorld) = Return response.
Proof.
  apply (only_posts_and_resets_change_state (stubEnv (Throw TypeError)) (js "abc")
           {| method := js "PUT"; pathname := js "/chat/abc"; body := js "x" |}
           abcWorld); reflexivity.
Defined.

(** What the handler writes, if anything, is its own history. *)
Lemma fetch_footprint (env : Env) (this : jsstring) (request : Request) (w : World)
    (k : jsstring * jsstring) :
  k <> (this, js "history") ->
  durable (snd (ChatAgent.fetch env this request w)) !! k = durable w !! k.
Proof.
  intros Hk. rewrite fetch_run.
  destruct (endsWith _ _); [by apply lookup_delete_ne|].
  destruct (bool_decide (method request = js "POST")).
  - cbv zeta. destruct (fst _); [by apply lookup_insert_ne|done].
  - by destruct (bool_decide (method request = js "GET")).
Qed.

(** X4. Whatever the request and whatever the model does, the handler of
    an object changes no storage entry other than that object's history. *)
Theorem handler_touches_only_its_own_history
    (env : Env) (this : jsstring) (request : Request) (w : World)
    (object key : jsstring) :
  (object, key) <> (this, js "history") ->
  durable (snd (ChatAgent.fetch env this request w)) !! (object, key)
  = durable w !! (object, key).
Proof. apply fetch_footprint. Qed.

Lemma handler_touches_only_its_own_history_witness :
  durable (snd (ChatAgent.fetch (stubEnv (Return (JString (js "ok")))) (js "xyz")
                  (postRequest (js "xyz") (js "hi")) abcWorld))
    !! (js "abc", js "history")
  = durable abcWorld !! (js "abc", js "history").
Proof.
  apply (handler_touches_only_its_own_history (stubEnv (Return (JString (js "ok"))))
           (js "xyz") (postRequest (js "xyz") (js "hi")) abcWorld
           (js "abc") (js "history")).
  discriminate.
Defined.

(** X5. Without a reset the history only grows: after any request whose
    path does not end in "/reset", succeeding or throwing, the history
    stored before is a prefix of the history stored after. *)
Theorem history_only_grows_without_reset
    (env : Env) (this : jsstring) (request : Request) (w : World) :
  endsWith (pathname request) (js "/reset") = false ->
  exists added,
    storedHistory this (snd (ChatAgent.fetch env this request w))
    = storedHistory this w ++ added
    /\ (added = [] \/ exists reply, added = turn (body request) reply).
Proof.
  intros Hreset. rewrite fetch_run, Hreset.
  destruct (bool_decide (method request = js "POST")).
  - cbv zeta. destruct (fst _) as [reply|e]; cbn [snd].
    + exists (turn (body request) reply). rewrite storedHistory_insert. eauto.
    + exists []. by rewrite app_nil_r; eauto.
  - exists []. rewrite app_nil_r.
    by destruct (bool_decide (method request = js "GET")); eauto.
Qed.

Lemma history_only_grows_without_reset_witness :
  exists added,
    storedHistory (js "abc")
      (snd (ChatAgent.fetch (stubEnv (Return (JString (js "ok")))) (js "abc")
              (postRequest (js "abc") (js "more")) abcWorld))
    = storedHistory (js "abc") abcWorld ++ added
    /\ (added = [] \/ exists reply, added = turn (js "more") reply).
Proof.
  apply (history_only_grows_without_reset (stubEnv (Return (JString (js "ok"))))
           (js "abc") (postRequest (js "abc") (js "more")) abcWorld).
  reflexivity.
Defined.

(** X6. The model is called by posts only, once each, and is sent the
    whole stored history: a request that reaches the POST branch adds one
    call whose user message is every stored line followed by
    "User: <body>"; every other request adds none. *)
Theorem model_is_called_once_by_posts_only
    (env : Env) (this : jsstring) (request : Request) (w : World) :
  ai_log (snd (ChatAgent.fetch env this request w)) =
    if isPost request then
      ai_log w ++
      [ {| model := ChatAgent.modelName;
           messages :=
             [ {| role := js "system"; content := ChatAgent.systemPrompt |};
               {| role := js "user";
                  content := join [LF] (storedHistory this w
                                        ++ [js "User: " ++ body request]) |} ];
           max_tokens := 50 |} ]
    else ai_log w.
Proof.
  rewrite fetch_run. unfold isPost.
  destruct (endsWith _ _); [by rewrite andb_false_r|].
  destruct (bool_decide (method request = js "POST")); cbn [andb negb].
  - cbv zeta. by destruct (fst _).
  - by destruct (bool_decide (method request = js "GET")).
Qed.

(* ------------------------------------------------------------------ *)
(** ** Further properties of the reply generator *)
(* ------------------------------------------------------------------ *)

Lemma trimStart_cut (s : jsstring) :
  exists a, s = a ++ trimStart s /\ forallb isWhiteSpace a = true.
Proof.
  induction s as [|c s (a & Hs & Ha)]; [by exists []|].
  simpl. destruct (isWhiteSpace c) eqn:Hc.
  - exists (c :: a). simpl. rewrite Hc, Ha. split; [by f_equal|done].
  - by exists [].
Qed.

Lemma trimStart_clean (s : jsstring) : startsClean (trimStart s) = true.
Proof.
  induction s as [|c s IH]; [done|].
  simpl. destruct (isWhiteSpace c) eqn:Hc; [done|]. simpl. by rewrite Hc.
Qed.

Lemma trimStart_white (s : jsstring) :
  forallb isWhiteSpace s = true -> trimStart s = [].
Proof.
  induction s as [|c s IH]; [done|].
  simpl. intros [Hc Hs]%andb_prop. rewrite Hc. by apply IH.
Qed.

Lemma trimStart_nil_white (s : jsstring) :
  trimStart s = [] -> forallb isWhiteSpace s = true.
Proof.
  induction s as [|c s IH]; [done|].
  simpl. destruct (isWhiteSpace c); [done|discriminate].
Qed.

Lemma forallb_rev {A} (f : A -> bool) (l : list A) :
  forallb f (rev l) = forallb f l.
Proof.
  induction l as [|x l IH]; [done|].
  simpl. rewrite forallb_app, IH. simpl. rewrite andb_true_r. apply andb_comm.
Qed.

(** [trim] removes white space at both ends and nothing else. *)
Lemma trim_cut (s : jsstring) :
  exists a b,
    s = a ++ trim s ++ b
    /\ forallb isWhiteSpace a = true /\ forallb isWhiteSpace b = true
    /\ startsClean (trim s) = true /\ startsClean (rev (trim s)) = true.
Proof.
  destruct (trimStart_cut s) as (a & Hs & Ha).
  destruct (trimStart_cut (rev (trimStart s))) as (b & Ht & Hb).
  assert (Hmid : trimStart s = trim s ++ rev b).
  { unfold trim. rewrite <- rev_app_distr, <- Ht. by rewrite rev_involutive. }
  exists a, (rev b). repeat split.
  - by rewrite <- Hmid.
  - done.
  - by rewrite forallb_rev.
  - pose proof (trimStart_clean s) as Hclean. rewrite Hmid in Hclean.
    by destruct (trim s).
  - unfold trim. rewrite rev_involutive. apply trimStart_clean.
Qed.

Lemma trim_white (s : jsstring) : forallb isWhiteSpace s = true -> trim s = [].
Proof. intros Hs. unfold trim. by rewrite (trimStart_white s Hs). Qed.

(** A text that begins with something other than white space does not
    trim to the empty text. *)
Lemma trim_not_nil (c : N) (s : jsstring) :
  isWhiteSpace c = false -> trim (c :: s) <> [].
Proof.
  intros Hc Hnil. unfold trim in Hnil. simpl in Hnil. rewrite Hc in Hnil.
  apply (f_equal (@rev N)) in Hnil. rewrite rev_involutive in Hnil. simpl in Hnil.
  apply trimStart_nil_white in Hnil.
  rewrite forallb_app in Hnil. simpl in Hnil. rewrite Hc in Hnil.
  by rewrite andb_false_r in Hnil.
Qed.

(** X7. Extraction never changes the state, and it throws in exactly one
    case: the result is an object that has a [response] property whose
    value is not a string. What it throws is a TypeError. *)
Theorem extraction_throws_only_on_non_string_response (v : JsValue) (w : World) :
  snd (ChatAgent.extractReply v w) = w
  /\ ((exists e, fst (ChatAgent.extractReply v w) = Throw e)
      <-> (exists props,
             v = JObject props
             /\ hasProperty (js "response") v = true
             /\ forall s, lookupProperty (js "response") props <> JString s))
  /\ (forall e, fst (ChatAgent.extractReply v w) = Throw e -> e = TypeError).
Proof.
  rewrite extractReply_cases. cbn [fst snd]. split; [done|].
  destruct v as [| |b|n|s|props];
    try (split; [split; [by intros [e ?]|by intros (props' & ? & _)]|done]).
  destruct (hasProperty (js "response") (JObject props)) eqn:Hhas.
  - destruct (lookupProperty (js "response") props) as [| |b|n|s|inner] eqn:Hlook;
      try (split; [split; [intros _; exists props; by rewrite Hlook
                          |intros _; by eexists]
                  |by intros e [= <-]]).
    split; [split; [by intros [e ?]|]|done].
    intros (props' & [= <-] & _ & Hno). by destruct (Hno s).
  - split; [split; [by intros [e ?]|by intros (props' & _ & ? & _)]|done].
Qed.

(** X8. A string answer of the model, given as the result itself or as
    the [response] property of a result object, becomes the reply with the
    white space at both ends removed and nothing else changed. *)
Theorem string_answers_are_trimmed (v : JsValue) (s : jsstring) (w : World) :
  v = JString s
  \/ (exists props,
        v = JObject props /\ hasProperty (js "response") v = true
        /\ lookupProperty (js "response") props = JString s) ->
  exists reply a b,
    ChatAgent.extractReply v w = (Return reply, w)
    /\ s = a ++ reply ++ b
    /\ forallb isWhiteSpace a = true /\ forallb isWhiteSpace b = true
    /\ startsClean reply = true /\ startsClean (rev reply) = true.
Proof.
  intros Hshape. destruct (trim_cut s) as (a & b & Hcut).
  exists (trim s), a, b. split; [|done].
  rewrite extractReply_cases.
  destruct Hshape as [->|(props & -> & Hhas & Hlook)]; [done|].
  by rewrite Hhas, Hlook.
Qed.

Lemma string_answers_are_trimmed_witness :
  exists reply a b,
    ChatAgent.extractReply
      (JObject [(js "usage", JNumber 7); (js "response", JString (js "  4 "))])
      emptyWorld = (Return reply, emptyWorld)
    /\ js "  4 " = a ++ reply ++ b
    /\ forallb isWhiteSpace a = true /\ forallb isWhiteSpace b = true
    /\ startsClean reply = true /\ startsClean (rev reply) = true.
Proof.
  apply (string_answers_are_trimmed
           (JObject [(js "usage", JNumber 7); (js "response", JString (js "  4 "))])
           (js "  4 ") emptyWorld).
  right. eexists. split; [reflexivity|]. split; reflexivity.
Defined.

(** X9. A string answer made of white space only (the empty string
    included) is not replaced by the fallback text: the post returns the
    empty text and stores the line "AI: " after the user's line. *)
Theorem blank_answer_gives_empty_reply
    (env : Env) (this : jsstring) (request : Request) (w : World) (s : jsstring) :
  isPost request = true ->
  AI_run env (ai_log w)
    (ChatAgent.modelRequest (body request) (storedHistory this w)) = Return (JString s) ->
  forallb isWhiteSpace s = true ->
  responseText (fst (ChatAgent.fetch env this request w)) = Some []
  /\ storedHistory this (snd (ChatAgent.fetch env this request w))
     = storedHistory this w ++ [js "User: " ++ body request; js "AI: "].
Proof.
  intros Hpost Hrun Hblank. run_post Hpost.
  rewrite getAIResponse_run. cbv zeta.
  rewrite Hrun, extractReply_cases, (trim_white s Hblank). cbn [fst snd responseText resp_body].
  split; [done|]. rewrite storedHistory_insert. unfold turn.
  by rewrite app_nil_r.
Qed.

Lemma blank_answer_gives_empty_reply_witness :
  responseText
    (fst (ChatAgent.fetch (stubEnv (Return (JString [32%N; LF]))) (js "abc")
            (postRequest (js "abc") (js "hi")) emptyWorld)) = Some []
  /\ storedHistory (js "abc")
       (snd (ChatAgent.fetch (stubEnv (Return (JString [32%N; LF]))) (js "abc")
               (postRequest (js "abc") (js "hi")) emptyWorld))
     = storedHistory (js "abc") emptyWorld ++ [js "User: " ++ js "hi"; js "AI: "].
Proof.
  apply (blank_answer_gives_empty_reply (stubEnv (Return (JString [32%N; LF])))
           (js "abc") (postRequest (js "abc") (js "hi")) emptyWorld [32%N; LF]);
    reflexivity.
Defined.

(* ------------------------------------------------------------------ *)
(** ** Further properties of the Worker *)
(* ------------------------------------------------------------------ *)

Lemma startsWith_inv (s p : jsstring) :
  startsWith s p = true -> exists rest, s = p ++ rest.
Proof.
  revert s. induction p as [|c p IH]; intros s H; [by exists s|].
  destruct s as [|d s]; [done|]. simpl in H.
  apply andb_prop in H as [Hc Hp]. apply N.eqb_eq in Hc as ->.
  destruct (IH s Hp) as [rest ->]. by exists rest.
Qed.

(** Where the first occurrence of a code unit is decides what precedes it. *)
Lemma first_occurrence (c : N) (a b x y : jsstring) :
  lacks c a = true -> lacks c b = true ->
  a ++ c :: x = b ++ c :: y -> a = b.
Proof.
  revert b. induction a as [|d a IH]; intros [|e b] Ha Hb Heq; simpl in *.
  - done.
  - injection Heq as <- _. apply andb_prop in Hb as [Hb _].
    by rewrite N.eqb_refl in Hb.
  - injection Heq as -> _. apply andb_prop in Ha as [Ha _].
    by rewrite N.eqb_refl in Ha.
  - injection Heq as <- Heq.
    apply andb_prop in Ha as [_ Ha]. apply andb_prop in Hb as [_ Hb].
    f_equal. by apply (IH b).
Qed.

Lemma lacks_rev (c : N) (s : jsstring) : lacks c (rev s) = lacks c s.
Proof. apply forallb_rev. Qed.

(** A path ends in "/reset" exactly when its last piece is "reset". *)
Lemma endsWith_reset_last_piece (front seg : jsstring) :
  lacks SLASH seg = true ->
  endsWith (front ++ SLASH :: seg) (js "/reset") = bool_decide (seg = js "reset").
Proof.
  intros Hseg. case_bool_decide as Heq.
  - subst seg. apply (endsWith_app front (js "/reset")).
  - apply not_true_is_false. intros Hends. apply Heq.
    unfold endsWith in Hends. apply startsWith_inv in Hends as [rest Hrest].
    rewrite rev_app_distr in Hrest. cbn [rev] in Hrest.
    rewrite <- app_assoc in Hrest.
    assert (Hsame : rev seg = rev (js "reset")).
    { apply (first_occurrence SLASH _ _ (rev front) rest);
        [by rewrite lacks_rev|done|exact Hrest]. }
    by rewrite <- (rev_involutive seg), Hsame.
Qed.

Lemma includes_post_get (m : jsstring) :
  includes [js "POST"; js "GET"] m = true -> m = js "POST" \/ m = js "GET".
Proof.
  unfold includes. simpl. rewrite orb_false_r.
  intros [H|H]%orb_prop; apply bool_decide_eq_true in H; auto.
Qed.

(** X10. One request changes at most one storage entry: an entry that
    differs after the Worker has handled a request is the history of the
    object named by the last piece of the request's path, and the request
    was a GET or POST under "/chat/". *)
Theorem worker_changes_at_most_one_history
    (env : Env) (request : Request) (w : World) (object key : jsstring) :
  durable (snd (Worker.fetch env request w)) !! (object, key)
    <> durable w !! (object, key) ->
  key = js "history"
  /\ pop (split SLASH (pathname request)) = Some object
  /\ startsWith (pathname request) (js "/chat/") = true
  /\ includes [js "POST"; js "GET"] (method request) = true.
Proof.
  intros Hchanged.
  destruct (startsWith (pathname request) (js "/chat/")
            && includes [js "POST"; js "GET"] (method request)) eqn:Hroute.
  - apply andb_prop in Hroute as [Hstart Hmethod].
    unfold Worker.fetch in Hchanged. rewrite Hstart, Hmethod in Hchanged.
    cbn [andb] in Hchanged.
    destruct (pop (split SLASH (pathname request))) as [id|]; [|done].
    destruct (decide ((object, key) = (id, js "history"))) as [[= -> ->]|Hne]; [done|].
    by rewrite fetch_footprint in Hchanged.
  - by rewrite Worker_fetch_assets in Hchanged.
Qed.

Lemma worker_changes_at_most_one_history_witness :
  js "history" = js "history"
  /\ pop (split SLASH (pathname (postRequest (js "abc") (js "hi")))) = Some (js "abc")
  /\ startsWith (pathname (postRequest (js "abc") (js "hi"))) (js "/chat/") = true
  /\ includes [js "POST"; js "GET"] (method (postRequest (js "abc") (js "hi"))) = true.
Proof.
  apply (worker_changes_at_most_one_history (stubEnv (Return (JString (js "ok"))))
           (postRequest (js "abc") (js "hi")) emptyWorld (js "abc") (js "history")).
  vm_compute. discriminate.
Defined.

(** X11. Of the path, only the last piece matters: two chat requests with
    the same method and body whose paths end in the same piece are handled
    alike, by the same object and with the same outcome, whatever precedes
    that piece. *)
Theorem requests_with_the_same_last_piece_agree
    (env : Env) (r1 r2 : Request) (w : World) (front1 front2 seg : jsstring) :
  method r1 = method r2 ->
  body r1 = body r2 ->
  pathname r1 = front1 ++ SLASH :: seg ->
  pathname r2 = front2 ++ SLASH :: seg ->
  lacks SLASH seg = true ->
  startsWith (pathname r1) (js "/chat/") = true ->
  startsWith (pathname r2) (js "/chat/") = true ->
  includes [js "POST"; js "GET"] (method r1) = true ->
  Worker.fetch env r1 w = Worker.fetch env r2 w
  /\ Worker.fetch env r1 w = ChatAgent.fetch env seg r1 w.
Proof.
  intros Hm Hb Hp1 Hp2 Hseg Hs1 Hs2 Hinc.
  rewrite (Worker_fetch_chat env r1 w front1 seg) by done.
  rewrite (Worker_fetch_chat env r2 w front2 seg) by (by rewrite <- ?Hm).
  split; [|done]. rewrite !fetch_run.
  by rewrite Hp1, Hp2, !endsWith_reset_last_piece, Hm, Hb.
Qed.

Lemma requests_with_the_same_last_piece_agree_witness :
  Worker.fetch (stubEnv (Return (JString (js "ok"))))
    {| method := js "GET"; pathname := js "/chat/abc"; body := [] |} abcWorld
  = Worker.fetch (stubEnv (Return (JString (js "ok"))))
      {| method := js "GET"; pathname := js "/chat/other/abc"; body := [] |} abcWorld
  /\ Worker.fetch (stubEnv (Return (JString (js "ok"))))
       {| method := js "GET"; pathname := js "/chat/abc"; body := [] |} abcWorld
     = ChatAgent.fetch (stubEnv (Return (JString (js "ok")))) (js "abc")
         {| method := js "GET"; pathname := js "/chat/abc"; body := [] |} abcWorld.
Proof.
  apply (requests_with_the_same_last_piece_agree
           (stubEnv (Return (JString (js "ok"))))
           {| method := js "GET"; pathname := js "/chat/abc"; body := [] |}
           {| method := js "GET"; pathname := js "/chat/other/abc"; body := [] |}
           abcWorld (js "/chat") (js "/chat/other") (js "abc"));
    reflexivity.
Defined.

(** X12. Every response the Worker returns for a GET or POST under
    "/chat/" has status 200 and the one header content-type: text/plain;
    the handler's "ChatAgent ready" answer, which has no header, is never
    returned through the Worker. *)
Theorem chat_routes_answer_in_plain_text
    (env : Env) (request : Request) (w : World) (response : Response) :
  startsWith (pathname request) (js "/chat/") = true ->
  includes [js "POST"; js "GET"] (method request) = true ->
  fst (Worker.fetch env request w) = Return response ->
  status response = 200%Z
  /\ headers response = [(js "content-type", js "text/plain")].
Proof.
  intros Hstart Hmethod. unfold Worker.fetch. rewrite Hstart, Hmethod. cbn [andb].
  destruct (pop (split SLASH (pathname request))) as [id|]; [|done].
  rewrite fetch_run.
  destruct (endsWith _ _); [cbn [fst]; intros [= <-]; split; reflexivity|].
  destruct (includes_post_get _ Hmethod) as [-> | ->].
  - change (bool_decide (js "POST" = js "POST")) with true. cbv zeta iota.
    destruct (fst (ChatAgent.getAIResponse _ _ _ _)); cbn [fst];
      [intros [= <-]; split; reflexivity|done].
  - change (bool_decide (js "GET" = js "POST")) with false.
    change (bool_decide (js "GET" = js "GET")) with true.
    cbn [fst]. intros [= <-]. split; reflexivity.
Qed.

Lemma chat_routes_answer_in_plain_text_witness :
  status {| resp_body := js "User: hi" ++ [LF] ++ js "AI: hello"; status := 200;
            headers := ChatAgent.textPlain |} = 200%Z
  /\ headers {| resp_body := js "User: hi" ++ [LF] ++ js "AI: hello"; status := 200;
                headers := ChatAgent.textPlain |}
     = [(js "content-type", js "text/plain")].
Proof.
  apply (chat_routes_answer_in_plain_text (stubEnv (Throw TypeError))
           (getRequest (js "abc")) abcWorld
           {| resp_body := js "User: hi" ++ [LF] ++ js "AI: hello"; status := 200;
              headers := ChatAgent.textPlain |});
    reflexivity.
Defined.

(** How the asset branch runs. *)
Lemma Worker_fetch_assets_run (env : Env) (request : Request) (w : World) :
  startsWith (pathname request) (js "/chat/")
  && includes [js "POST"; js "GET"] (method request) = false ->
  Worker.fetch env request w =
    (match ASSETS_fetch env request with
     | Return asset =>
         if (status asset =? 404)%Z
            && (bool_decide (pathname request = js "/")
                || bool_decide (pathname request = [])
                || endsWith (pathname request) (js "/"))
         then match ASSETS_fetch env (Worker.indexRequest request) with
              | Return index => Return index
              | Throw _ =>
                  Return {| resp_body := Worker.internalErrorText; status := 500;
                            headers := [] |}
              end
         else Return asset
     | Throw _ =>
         Return {| resp_body := Worker.internalErrorText; status := 500;
                   headers := [] |}
     end, w).
Proof.
  intros Hno. unfold Worker.fetch. rewrite Hno.
  unfold try_catch, bind, assets_fetch, ret.
  destruct (ASSETS_fetch env request) as [asset|e]; [|done].
  destruct (status asset =? 404)%Z; [|done].
  destruct (_ || _); [|done]. cbn [andb].
  by destruct (ASSETS_fetch env (Worker.indexRequest request)).
Qed.

(** X13. Serving assets never throws: a request that is not a chat
    request is always answered with a response and changes no state, and
    when the asset fetcher fails the answer is the 500 response with the
    internal-error text. *)
Theorem asset_serving_never_throws (env : Env) (request : Request) (w : World) :
  startsWith (pathname request) (js "/chat/")
  && includes [js "POST"; js "GET"] (method request) = false ->
  exists response,
    Worker.fetch env request w = (Return response, w)
    /\ (forall e, ASSETS_fetch env request = Throw e ->
        response = {| resp_body := [9888%N; 65039%N]
                                   ++ js " Internal Error while serving assets";
                      status := 500; headers := [] |}).
Proof.
  intros Hno. rewrite (Worker_fetch_assets_run _ _ _ Hno).
  destruct (ASSETS_fetch env request) as [asset|e].
  - destruct ((status asset =? 404)%Z && _);
      [destruct (ASSETS_fetch env (Worker.indexRequest request))|];
      eexists; (split; [reflexivity|discriminate]).
  - eexists. split; [reflexivity|]. by intros.
Qed.

Lemma asset_serving_never_throws_witness :
  exists response,
    Worker.fetch brokenAssets
      {| method := js "DELETE"; pathname := js "/chat/abc"; body := [] |} abcWorld
    = (Return response, abcWorld)
    /\ (forall e, ASSETS_fetch brokenAssets
                    {| method := js "DELETE"; pathname := js "/chat/abc"; body := [] |}
                  = Throw e ->
        response = {| resp_body := [9888%N; 65039%N]
                                   ++ js " Internal Error while serving assets";
                      status := 500; headers := [] |}).
Proof.
  apply (asset_serving_never_throws brokenAssets
           {| method := js "DELETE"; pathname := js "/chat/abc"; body := [] |}
           abcWorld).
  reflexivity.
Defined.

(** X14. An asset is returned as the fetcher found it unless it is a 404
    for a path that ends in a slash: any status other than 404, and a 404
    for a path such as "/missing.js", reaches the caller unchanged; and a
    404 for a path ending in a slash is answered with what the fetcher
    has for "/index.html", asked with the same method and body. *)
Theorem index_fallback_only_for_directory_paths
    (env : Env) (request : Request) (w : World) (asset : Response) :
  startsWith (pathname request) (js "/chat/")
  && includes [js "POST"; js "GET"] (method request) = false ->
  ASSETS_fetch env request = Return asset ->
  (status asset <> 404%Z \/ endsWith (pathname request) (js "/") = false ->
   pathname request <> [] ->
   Worker.fetch env request w = (Return asset, w))
  /\ (status asset = 404%Z -> endsWith (pathname request) (js "/") = true ->
      forall index,
        ASSETS_fetch env {| method := method request; pathname := js "/index.html";
                            body := body request |} = Return index ->
        Worker.fetch env request w = (Return index, w)).
Proof.
  intros Hno Hasset. rewrite (Worker_fetch_assets_run _ _ _ Hno), Hasset. split.
  - intros Hkeep Hpath.
    destruct (status asset =? 404)%Z eqn:Hstatus; [|done].
    apply Z.eqb_eq in Hstatus. destruct Hkeep as [Hkeep|Hkeep]; [done|].
    rewrite Hkeep, orb_false_r.
    rewrite (bool_decide_eq_false_2 (pathname request = [])) by done.
    rewrite orb_false_r.
    case_bool_decide as Hroot; [|done].
    rewrite Hroot in Hkeep. done.
  - intros Hstatus Hslash index Hindex.
    rewrite Hstatus, Hslash, orb_true_r. cbn [andb Z.eqb].
    unfold Worker.indexRequest. by rewrite Hindex.
Qed.

Lemma index_fallback_only_for_directory_paths_witness :
  Worker.fetch indexOnly
    {| method := js "GET"; pathname := js "/missing.js"; body := [] |} emptyWorld
  = (Return {| resp_body := js "Not found"; status := 404; headers := [] |}, emptyWorld)
  /\ Worker.fetch indexOnly
       {| method := js "GET"; pathname := js "/docs/"; body := [] |} emptyWorld
     = (Return {| resp_body := js "<html>"; status := 200; headers := [] |}, emptyWorld).
Proof.
  split.
  - apply (proj1 (index_fallback_only_for_directory_paths indexOnly
                    {| method := js "GET"; pathname := js "/missing.js"; body := [] |}
                    emptyWorld
                    {| resp_body := js "Not found"; status := 404; headers := [] |}
                    eq_refl eq_refl));
      [by right|discriminate].
  - apply (proj2 (index_fallback_only_for_directory_paths indexOnly
                    {| method := js "GET"; pathname := js "/docs/"; body := [] |}
                    emptyWorld
                    {| resp_body := js "Not found"; status := 404; headers := [] |}
                    eq_refl eq_refl));
      reflexivity.
Defined.

(** A chat request whose last piece is not "reset" reaches the POST or
    the GET branch of the object named by that piece. *)
Lemma Worker_fetch_piece (env : Env) (request : Request) (w : World)
    (front seg : jsstring) :
  includes [js "POST"; js "GET"] (method request) = true ->
  startsWith (pathname request) (js "/chat/") = true ->
  pathname request = front ++ SLASH :: seg ->
  lacks SLASH seg = true ->
  seg <> js "reset" ->
  Worker.fetch env request w = ChatAgent.fetch env seg request w
  /\ endsWith (pathname request) (js "/reset") = false.
Proof.
  intros Hm Hstart Hp Hseg Hne. split.
  - by apply (Worker_fetch_chat env request w front seg).
  - rewrite Hp, endsWith_reset_last_piece by done.
    by apply bool_decide_eq_false_2.
Qed.

(** X15. The Worker does not catch what the handler throws: when the
    model call fails for a POST request whose path is under "/chat/" and
    whose last piece is not "reset", the Worker's [fetch] itself fails
    with the same exception (no 500 response is built, unlike for assets)
    and storage is unchanged. *)
Theorem model_failure_rejects_the_worker_fetch
    (env : Env) (request : Request) (w : World) (front seg : jsstring) (e : Exn) :
  method request = js "POST" ->
  startsWith (pathname request) (js "/chat/") = true ->
  pathname request = front ++ SLASH :: seg ->
  lacks SLASH seg = true ->
  seg <> js "reset" ->
  AI_run env (ai_log w)
    (ChatAgent.modelRequest (body request) (storedHistory seg w)) = Throw e ->
  fst (Worker.fetch env request w) = Throw e
  /\ durable (snd (Worker.fetch env request w)) = durable w.
Proof.
  intros Hm Hstart Hp Hseg Hne Hthrow.
  destruct (Worker_fetch_piece env request w front seg) as [-> Hpath]; try done.
  { by rewrite Hm. }
  apply failed_reply_appends_nothing.
  - unfold isPost. by rewrite Hm, Hpath.
  - rewrite getAIResponse_run. cbv zeta. by rewrite Hthrow.
Qed.

Lemma model_failure_rejects_the_worker_fetch_witness :
  fst (Worker.fetch (stubEnv (Throw (External (js "timeout"))))
         (postRequest (js "abc") (js "more")) abcWorld)
    = Throw (External (js "timeout"))
  /\ durable (snd (Worker.fetch (stubEnv (Throw (External (js "timeout"))))
                     (postRequest (js "abc") (js "more")) abcWorld))
     = durable abcWorld.
Proof.
  apply (model_failure_rejects_the_worker_fetch
           (stubEnv (Throw (External (js "timeout"))))
           (postRequest (js "abc") (js "more")) abcWorld (js "/chat") (js "abc")
           (External (js "timeout")));
    [reflexivity|reflexivity|reflexivity|reflexivity|discriminate|reflexivity].
Defined.

(** X16. Through the Worker, on the paths the Worker reads: after a POST
    request under "/chat/" whose last piece is not "reset" has been
    answered with a reply, a GET request whose path ends in the same piece
    returns the lines stored before under that piece followed by
    "User: <body>" and "AI: <reply>", joined by line feeds; and a GET
    request whose path ends in any other piece is answered as it was
    before the post. *)
Theorem post_then_get_through_the_worker
    (env : Env) (post get : Request) (w : World)
    (front front' seg reply : jsstring) :
  method post = js "POST" ->
  startsWith (pathname post) (js "/chat/") = true ->
  pathname post = front ++ SLASH :: seg ->
  lacks SLASH seg = true ->
  seg <> js "reset" ->
  method get = js "GET" ->
  startsWith (pathname get) (js "/chat/") = true ->
  pathname get = front' ++ SLASH :: seg ->
  responseText (fst (Worker.fetch env post w)) = Some reply ->
  let w' := snd (Worker.fetch env post w) in
  responseText (fst (Worker.fetch env get w'))
    = Some (join [LF] (storedHistory seg w
                       ++ [js "User: " ++ body post; js "AI: " ++ reply]))
  /\ forall other front'' seg',
       method other = js "GET" ->
       startsWith (pathname other) (js "/chat/") = true ->
       pathname other = front'' ++ SLASH :: seg' ->
       lacks SLASH seg' = true ->
       seg' <> seg ->
       fst (Worker.fetch env other w') = fst (Worker.fetch env other w).
Proof.
  intros Hm Hstart Hp Hseg Hne Hgm Hgstart Hgp Hreply w'. subst w'.
  destruct (Worker_fetch_piece env post w front seg) as [Hpost Hpath]; try done.
  { by rewrite Hm. }
  rewrite Hpost in *.
  assert (HisPost : isPost post = true) by (unfold isPost; by rewrite Hm, Hpath).
  split.
  - destruct (Worker_fetch_piece env get (snd (ChatAgent.fetch env seg post w))
                front' seg) as [-> Hgpath]; try done.
    { by rewrite Hgm. }
    rewrite fetch_get by done. cbn [fst responseText resp_body].
    run_post HisPost.
    destruct (fst (ChatAgent.getAIResponse env (body post) (storedHistory seg w) w))
      as [r|e]; [|done].
    cbn [fst snd responseText resp_body] in *. injection Hreply as ->.
    by rewrite storedHistory_insert.
  - intros other front'' seg' Hom Hostart Hop Hoseg Hdiff.
    rewrite !(Worker_fetch_chat env other _ front'' seg') by (by rewrite ?Hom).
    assert (Hsame : storedHistory seg' (snd (ChatAgent.fetch env seg post w))
                    = storedHistory seg' w).
    { unfold storedHistory. by rewrite fetch_footprint by congruence. }
    set (w' := snd (ChatAgent.fetch env seg post w)) in *.
    rewrite !fetch_run.
    destruct (endsWith (pathname other) (js "/reset")); [done|].
    rewrite Hom.
    change (bool_decide (js "GET" = js "POST")) with false.
    change (bool_decide (js "GET" = js "GET")) with true.
    cbn [fst]. by rewrite Hsame.
Qed.

Lemma post_then_get_through_the_worker_witness :
  responseText
    (fst (Worker.fetch (stubEnv (Return (JString (js "4")))) (getRequest (js "abc123"))
            (snd (Worker.fetch (stubEnv (Return (JString (js "4"))))
                    (postRequest (js "abc123") (js "What is 2+2?")) abcWorld))))
  = Some (js "User: What is 2+2?" ++ [LF] ++ js "AI: 4").
Proof.
  apply (post_then_get_through_the_worker (stubEnv (Return (JString (js "4"))))
           (postRequest (js "abc123") (js "What is 2+2?")) (getRequest (js "abc123"))
           abcWorld (js "/chat") (js "/chat") (js "abc123") (js "4"));
    [reflexivity|reflexivity|reflexivity|reflexivity|discriminate
    |reflexivity|reflexivity|reflexivity|reflexivity].
Defined.

(** X17. A reset forgets the conversation: on one and the same object,
    after a request whose path ends in "/reset", a get is answered with
    the empty text, and the next post sends the model nothing but
    "User: <body>" and, when it succeeds, leaves exactly its own turn
    stored. *)
Theorem reset_forgets_the_conversation
    (env : Env) (this : jsstring) (resetReq getReq postReq : Request) (w : World) :
  endsWith (pathname resetReq) (js "/reset") = true ->
  endsWith (pathname getReq) (js "/reset") = false ->
  method getReq = js "GET" ->
  isPost postReq = true ->
  let w1 := snd (ChatAgent.fetch env this resetReq w) in
  let w2 := snd (ChatAgent.fetch env this postReq w1) in
  responseText (fst (ChatAgent.fetch env this getReq w1)) = Some []
  /\ (exists call,
        ai_log w2 = ai_log w ++ [call]
        /\ content <$> last (messages call) = Some (js "User: " ++ body postReq))
  /\ forall reply,
       responseText (fst (ChatAgent.fetch env this postReq w1)) = Some reply ->
       storedHistory this w2 = [js "User: " ++ body postReq; js "AI: " ++ reply].
Proof.
  intros Hreset Hpath Hget Hpost w1 w2. subst w2 w1.
  rewrite (fetch_reset _ _ _ _ Hreset). cbn [snd].
  split; [|split].
  - rewrite fetch_get by done. cbn [fst responseText resp_body].
    by rewrite storedHistory_delete.
  - run_post Hpost. rewrite storedHistory_delete. eexists.
    split; [by destruct (fst (ChatAgent.getAIResponse _ _ _ _))|done].
  - intros reply. run_post Hpost. rewrite storedHistory_delete.
    destruct (fst (ChatAgent.getAIResponse _ _ _ _)) as [r|e]; [|done].
    cbn [fst snd responseText resp_body]. intros [= ->].
    by rewrite storedHistory_insert.
Qed.

Lemma reset_forgets_the_conversation_witness :
  responseText
    (fst (ChatAgent.fetch (stubEnv (Return (JString (js "ok")))) (js "abc")
            (getRequest (js "abc"))
            (snd (ChatAgent.fetch (stubEnv (Return (JString (js "ok")))) (js "abc")
                    (resetRequest (js "abc")) abcWorld))))
  = Some [].
Proof.
  apply (reset_forgets_the_conversation (stubEnv (Return (JString (js "ok"))))
           (js "abc") (resetRequest (js "abc")) (getRequest (js "abc"))
           (postRequest (js "abc") (js "again")) abcWorld);
    reflexivity.
Defined.

(** X18. When the model answers every call with a string, every post of
    a sequence succeeds: the sequence returns one reply for each request. *)
Theorem posts_succeed_when_the_model_answers_strings
    (env : Env) (this : jsstring) (requests : list Request) (w : World) :
  (forall log call, exists s, AI_run env log call = Return (JString s)) ->
  forallb isPost requests = true ->
  exists replies w',
    runPosts env this requests w = (Return replies, w')
    /\ length replies = length requests.
Proof.
  intros Hmodel Hposts.
  destruct (runPosts_returns env this requests Hmodel Hposts w)
    as (replies & w' & Hrun).
  exists replies, w'. split; [done|].
  by destruct (runPosts_appends env this requests w w' replies Hposts Hrun).
Qed.

Lemma posts_succeed_when_the_model_answers_strings_witness :
  exists replies w',
    runPosts twoAnswers (js "abc")
      [postRequest (js "abc") (js "m1"); postRequest (js "abc") (js "m2")] emptyWorld
    = (Return replies, w')
    /\ length replies
       = length [postRequest (js "abc") (js "m1"); postRequest (js "abc") (js "m2")].
Proof.
  apply (posts_succeed_when_the_model_answers_strings twoAnswers (js "abc")
           [postRequest (js "abc") (js "m1"); postRequest (js "abc") (js "m2")]
           emptyWorld).
  - intros log call. eexists. reflexivity.
  - reflexivity.
Defined.

(* ------------------------------------------------------------------ *)
(** ** The client's reading of the history text *)
(* ------------------------------------------------------------------ *)

Lemma split_join (xs : list jsstring) :
  xs <> [] -> forallb (lacks LF) xs = true -> split LF (join [LF] xs) = xs.
Proof.
  induction xs as [|x xs IH]; [done|]. intros _ [Hx Hxs]%andb_prop.
  destruct xs as [|y xs]; [by apply split_lacks|].
  change (join [LF] (x :: y :: xs)) with (x ++ LF :: join [LF] (y :: xs)).
  by rewrite split_app_sep, (split_lacks _ x Hx), IH.
Qed.

(** The early return of [openChat] on an empty text agrees with its loop. *)
Lemma openChat_lines (text : jsstring) :
  App.openChat (Some text) =
    flat_map App.messageOfLine
      (List.filter (fun l => negb (bool_decide (trim l = []))) (split LF text)).
Proof.
  unfold App.openChat. case_bool_decide as Hempty; [|done]. by subst text.
Qed.

Lemma messageOfLine_user (m : jsstring) :
  App.messageOfLine (js "User: " ++ m) = [(js "user", m)].
Proof. unfold App.messageOfLine. by rewrite startsWith_app. Qed.

Lemma messageOfLine_ai (r : jsstring) :
  App.messageOfLine (js "AI: " ++ r) = [(js "ai", r)].
Proof.
  unfold App.messageOfLine. rewrite (startsWith_app (js "AI: ") r).
  by change (startsWith (js "AI: " ++ r) (js "User: ")) with false.
Qed.

Lemma labelled_line_is_not_blank (label rest : jsstring) (c : N) :
  isWhiteSpace c = false ->
  negb (bool_decide (trim ((c :: label) ++ rest) = [])) = true.
Proof.
  intros Hc. apply negb_true_iff, bool_decide_eq_false_2.
  by apply trim_not_nil.
Qed.

Lemma transcript_read_back (messages replies : list jsstring) :
  flat_map App.messageOfLine
    (List.filter (fun l => negb (bool_decide (trim l = [])))
       (transcript messages replies))
  = dialogue messages replies.
Proof.
  revert replies. induction messages as [|m ms IH]; intros [|r rs]; try done.
  cbn [transcript dialogue turn app List.filter].
  change (js "User: " ++ m) with ((85%N :: js "ser: ") ++ m).
  change (js "AI: " ++ r) with ((65%N :: js "I: ") ++ r).
  rewrite !labelled_line_is_not_blank by done.
  change ((85%N :: js "ser: ") ++ m) with (js "User: " ++ m).
  change ((65%N :: js "I: ") ++ r) with (js "AI: " ++ r).
  cbn [flat_map]. rewrite messageOfLine_user, messageOfLine_ai, IH. done.
Qed.

Lemma transcript_lacks (messages replies : list jsstring) :
  forallb (lacks LF) messages = true -> forallb (lacks LF) replies = true ->
  forallb (lacks LF) (transcript messages replies) = true.
Proof.
  revert replies. induction messages as [|m ms IH]; intros [|r rs]; try done.
  intros [Hm Hms]%andb_prop [Hr Hrs]%andb_prop.
  cbn [transcript turn app forallb].
  rewrite !lacks_app, Hm, Hr, IH by done. done.
Qed.

(** X19. The client reads back what the server wrote: when no message
    and no reply contains a line feed, [openChat] turns the text of the
    history "User: m1", "AI: r1", ... into the messages (user, m1),
    (ai, r1), ... in order, text for text. *)
Theorem openChat_shows_the_transcript (messages replies : list jsstring) :
  forallb (lacks LF) messages = true ->
  forallb (lacks LF) replies = true ->
  App.openChat (Some (join [LF] (transcript messages replies)))
  = dialogue messages replies.
Proof.
  intros Hms Hrs. rewrite openChat_lines.
  destruct (transcript messages replies) as [|line rest] eqn:Hlines.
  - destruct messages as [|m ms], replies as [|r rs]; done.
  - rewrite split_join; [|done|by rewrite <- Hlines; apply transcript_lacks].
    rewrite <- Hlines. apply transcript_read_back.
Qed.

Lemma openChat_shows_the_transcript_witness :
  App.openChat (Some (js "User: What is 2+2?" ++ [LF] ++ js "AI: 4"))
  = [(js "user", js "What is 2+2?"); (js "ai", js "4")].
Proof.
  apply (openChat_shows_the_transcript [js "What is 2+2?"] [js "4"]); reflexivity.
Defined.

(** X20. [openChat] reads the text line by line: the messages it shows
    for two texts joined by a line feed are those of the first followed by
    those of the second, so a line is judged by its own first characters,
    wherever it came from; and for the empty text it shows nothing. *)
Theorem openChat_reads_line_by_line (first second : jsstring) :
  App.openChat (Some (first ++ [LF] ++ second))
  = App.openChat (Some first) ++ App.openChat (Some second)
  /\ App.openChat (Some []) = [].
Proof.
  split; [|done]. rewrite !openChat_lines. cbn [app].
  by rewrite split_app_sep, List.filter_app, flat_map_app.
Qed.

(* ------------------------------------------------------------------ *)
(** ** Chat titles *)
(* ------------------------------------------------------------------ *)

Lemma formatTitle_short (text : jsstring) :
  length text <= 30 -> App.formatTitle text = text.
Proof.
  intros Hlen. unfold App.formatTitle.
  by rewrite (proj2 (Nat.ltb_ge 30 (length text)) Hlen).
Qed.

Lemma formatTitle_long (text : jsstring) :
  30 < length text -> App.formatTitle text = take 15 text ++ js "...".
Proof.
  intros Hlen. unfold App.formatTitle.
  by rewrite (proj2 (Nat.ltb_lt 30 (length text)) Hlen).
Qed.

(** X21. [formatTitle] leaves a text of at most 30 code units as it is
    and turns a longer one into its first 15 code units followed by "...",
    18 code units in all; so a title is never longer than 30 code units,
    and formatting a title again changes nothing. *)
Theorem formatTitle_is_short_and_stable (text : jsstring) :
  (length text <= 30 -> App.formatTitle text = text)
  /\ (30 < length text ->
      App.formatTitle text = take 15 text ++ js "..."
      /\ length (App.formatTitle text) = 18)
  /\ length (App.formatTitle text) <= 30
  /\ App.formatTitle (App.formatTitle text) = App.formatTitle text.
Proof.
  split; [apply formatTitle_short|].
  destruct (le_lt_dec (length text) 30) as [Hshort|Hlong].
  - rewrite !formatTitle_short by (by rewrite ?formatTitle_short).
    split; [lia|]. split; [lia|done].
  - rewrite !(formatTitle_long text Hlong).
    assert (Hlen : length (take 15 text ++ js "...") = 18).
    { rewrite length_app, length_take. change (length (js "...")) with 3. lia. }
    split; [done|]. split; [lia|].
    apply formatTitle_short. lia.
Qed.

(* ------------------------------------------------------------------ *)
(** ** The sidebar's list of chats *)
(* ------------------------------------------------------------------ *)

Lemma firstChat_cons (id : jsstring) (c : App.Chat) (chats : list App.Chat) :
  firstChat id (c :: chats)
  = if bool_decide (App.chat_id c = id) then Some c else firstChat id chats.
Proof.
  unfold firstChat. simpl. case_bool_decide; [done|].
  by destruct (App.findIndex _ chats).
Qed.

Lemma findIndex_cons (id : jsstring) (c : App.Chat) (chats : list App.Chat) :
  App.findIndex (fun c => bool_decide (App.chat_id c = id)) (c :: chats)
  = if bool_decide (App.chat_id c = id) then Some 0
    else S <$> App.findIndex (fun c => bool_decide (App.chat_id c = id)) chats.
Proof. done. Qed.

Lemma findIndex_lookup (id : jsstring) (chats : list App.Chat) (i : nat) :
  App.findIndex (fun c => bool_decide (App.chat_id c = id)) chats = Some i ->
  exists c, chats !! i = Some c /\ App.chat_id c = id /\ firstChat id chats = Some c.
Proof.
  intros Hfind. unfold firstChat. rewrite Hfind.
  revert i Hfind. induction chats as [|c chats IH]; intros i Hfind; [done|].
  rewrite findIndex_cons in Hfind. case_bool_decide as Hc.
  - injection Hfind as <-. by exists c.
  - destruct (App.findIndex _ chats) as [j|]; [|done].
    injection Hfind as <-. by apply IH.
Qed.

Lemma firstChat_absent (id : jsstring) (chats : list App.Chat) :
  id ∉ map App.chat_id chats -> firstChat id chats = None.
Proof.
  induction chats as [|c chats IH]; [done|].
  intros Hnot. rewrite firstChat_cons. simpl in Hnot.
  apply not_elem_of_cons in Hnot as [Hc Hrest].
  rewrite bool_decide_eq_false_2 by done. by apply IH.
Qed.

Lemma findIndex_None (id : jsstring) (chats : list App.Chat) :
  App.findIndex (fun c => bool_decide (App.chat_id c = id)) chats = None ->
  id ∉ map App.chat_id chats.
Proof.
  induction chats as [|c chats IH]; [intros _; apply not_elem_of_nil|].
  rewrite findIndex_cons. case_bool_decide as Hc; [done|].
  destruct (App.findIndex _ chats); [done|]. intros _.
  simpl. apply not_elem_of_cons. split; [done|by apply IH].
Qed.

Lemma firstChat_snoc (id : jsstring) (chats : list App.Chat) (c : App.Chat) :
  firstChat id (chats ++ [c])
  = match firstChat id chats with
    | Some found => Some found
    | None => if bool_decide (App.chat_id c = id) then Some c else None
    end.
Proof.
  induction chats as [|d chats IH]; [cbn [app]; by rewrite firstChat_cons|].
  change ((d :: chats) ++ [c]) with (d :: (chats ++ [c])).
  rewrite !firstChat_cons.
  destruct (bool_decide (App.chat_id d = id)); [done|apply IH].
Qed.

(** Retitling the first chat with an id shows under that id and under no
    other. *)
Lemma firstChat_retitle (id newTitle : jsstring) (chats : list App.Chat) (i : nat) :
  App.findIndex (fun c => bool_decide (App.chat_id c = id)) chats = Some i ->
  firstChat id (App.retitle newTitle i chats)
    = Some {| App.chat_id := id; App.title := newTitle; App.renamed := true |}
  /\ forall other, other <> id ->
       firstChat other (App.retitle newTitle i chats) = firstChat other chats.
Proof.
  revert i. induction chats as [|c chats IH]; intros i Hfind; [done|].
  rewrite findIndex_cons in Hfind. case_bool_decide as Hc.
  - injection Hfind as <-. unfold App.retitle. cbn [alter list_alter].
    split.
    + rewrite firstChat_cons. cbn [App.chat_id].
      rewrite bool_decide_eq_true_2 by done. by rewrite Hc.
    + intros other Hother. rewrite !firstChat_cons. cbn [App.chat_id].
      by rewrite !bool_decide_eq_false_2 by congruence.
  - destruct (App.findIndex _ chats) as [j|]; [|done].
    injection Hfind as <-. destruct (IH j eq_refl) as [Hid Hothers].
    unfold App.retitle in *. cbn [alter list_alter]. split.
    + rewrite firstChat_cons. by rewrite bool_decide_eq_false_2 by done.
    + intros other Hother. rewrite !firstChat_cons.
      case_bool_decide; [done|]. by apply Hothers.
Qed.

Lemma firstChat_delete (id : jsstring) (chats : list App.Chat) (i : nat) :
  App.findIndex (fun c => bool_decide (App.chat_id c = id)) chats = Some i ->
  (NoDup (map App.chat_id chats) -> firstChat id (delete i chats) = None)
  /\ forall other, other <> id ->
       firstChat other (delete i chats) = firstChat other chats.
Proof.
  revert i. induction chats as [|c chats IH]; intros i Hfind; [done|].
  rewrite findIndex_cons in Hfind. case_bool_decide as Hc.
  - injection Hfind as <-. cbn [delete list_delete]. split.
    + intros Hnodup. simpl in Hnodup. apply NoDup_cons in Hnodup as [Hnot _].
      apply firstChat_absent. by rewrite <- Hc.
    + intros other Hother. rewrite firstChat_cons.
      by rewrite bool_decide_eq_false_2 by congruence.
  - destruct (App.findIndex _ chats) as [j|]; [|done].
    injection Hfind as <-. destruct (IH j eq_refl) as [Hid Hothers].
    cbn [delete list_delete]. split.
    + intros Hnodup. simpl in Hnodup. apply NoDup_cons in Hnodup as [_ Hnodup].
      rewrite firstChat_cons. rewrite bool_decide_eq_false_2 by done. by apply Hid.
    + intros other Hother. rewrite !firstChat_cons.
      case_bool_decide; [done|]. by apply Hothers.
Qed.

Lemma sample_codec_round_trip (chats : list App.Chat) :
  sampleParse (sampleStringify chats) = Return chats.
Proof. unfold sampleParse, sampleStringify. by rewrite decode_encode. Qed.

Lemma sample_codec_nonempty (chats : list App.Chat) : sampleStringify chats <> [].
Proof. done. Qed.

Section ChatList.

Variable JSON_parse : jsstring -> completion (list App.Chat).
Variable JSON_stringify : list App.Chat -> jsstring.

(** What is assumed of JSON: a written list parses back to itself, and
    no list is written as the empty text. *)
Hypothesis parse_stringify :
  forall chats, JSON_parse (JSON_stringify chats) = Return chats.
Hypothesis stringify_nonempty : forall chats, JSON_stringify chats <> [].

Lemma getChatsSafe_saved (ls : gmap jsstring jsstring) (chats : list App.Chat) :
  ls !! js "chats" = Some (JSON_stringify chats) ->
  App.getChatsSafe JSON_parse ls = (chats, ls).
Proof.
  intros Hls. unfold App.getChatsSafe. rewrite Hls.
  rewrite bool_decide_eq_false_2 by apply stringify_nonempty.
  by rewrite parse_stringify.
Qed.

Lemma findChatById_saved (id : jsstring) (ls : gmap jsstring jsstring)
    (chats : list App.Chat) :
  ls !! js "chats" = Some (JSON_stringify chats) ->
  App.findChatById JSON_parse id ls
  = ((chats, App.findIndex (fun c => bool_decide (App.chat_id c = id)) chats,
      firstChat id chats), ls).
Proof.
  intros Hls. unfold App.findChatById. by rewrite (getChatsSafe_saved ls chats).
Qed.

Lemma saveChats_holds (chats : list App.Chat) (ls : gmap jsstring jsstring) :
  App.saveChats JSON_stringify chats ls !! js "chats" = Some (JSON_stringify chats).
Proof. apply lookup_insert_eq. Qed.

(** X22. A manual rename shows: after [renameChat(id, title, true)] the
    chat found under the id has that title and is flagged as renamed,
    whether the id was listed before or not, and the chat found under any
    other id is the one found before. *)
Theorem manual_rename_sets_the_title
    (ls : gmap jsstring jsstring) (chats : list App.Chat) (id newTitle : jsstring) :
  ls !! js "chats" = Some (JSON_stringify chats) ->
  let ls' := App.renameChat JSON_parse JSON_stringify id newTitle true ls in
  (App.findChatById JSON_parse id ls').1.2
    = Some {| App.chat_id := id; App.title := newTitle; App.renamed := true |}
  /\ forall other, other <> id ->
       (App.findChatById JSON_parse other ls').1.2
       = (App.findChatById JSON_parse other ls).1.2.
Proof.
  intros Hls ls'. subst ls'. unfold App.renameChat.
  rewrite (findChatById_saved id ls chats Hls).
  destruct (App.findIndex _ chats) as [i|] eqn:Hfind.
  - destruct (firstChat_retitle id newTitle chats i Hfind) as [Hid Hothers].
    split; [|intros other Hother];
      rewrite (findChatById_saved _ _ _ (saveChats_holds _ ls)),
        ?(findChatById_saved _ ls chats) by done; cbn [fst snd]; auto.
  - apply findIndex_None in Hfind.
    split; [|intros other Hother];
      rewrite (findChatById_saved _ _ _ (saveChats_holds _ ls)),
        ?(findChatById_saved _ ls chats) by done; cbn [fst snd];
      rewrite firstChat_snoc; cbn [App.chat_id].
    + rewrite (firstChat_absent id chats Hfind).
      by rewrite bool_decide_eq_true_2.
    + destruct (firstChat other chats); [done|].
      by rewrite bool_decide_eq_false_2 by congruence.
Qed.

(** X23. Every chat [renameChat] writes is flagged as renamed, so a list
    whose chats are all flagged stays so through any rename; and on such a
    list an automatic rename of a listed id changes nothing: no title is
    ever replaced automatically. *)
Theorem automatic_rename_changes_no_title
    (ls : gmap jsstring jsstring) (chats : list App.Chat) (id newTitle : jsstring)
    (manual : bool) :
  ls !! js "chats" = Some (JSON_stringify chats) ->
  Forall (fun c => App.renamed c = true) chats ->
  exists chats',
    App.renameChat JSON_parse JSON_stringify id newTitle manual ls !! js "chats"
      = Some (JSON_stringify chats')
    /\ Forall (fun c => App.renamed c = true) chats'
    /\ (manual = false -> id ∈ map App.chat_id chats -> chats' = chats).
Proof.
  intros Hls Hflags. unfold App.renameChat.
  rewrite (findChatById_saved id ls chats Hls).
  assert (Hretitle : forall i,
            Forall (fun c => App.renamed c = true) (App.retitle newTitle i chats)).
  { intros i. unfold App.retitle. apply Forall_alter; [done|]. by intros. }
  destruct (App.findIndex _ chats) as [i|] eqn:Hfind.
  - destruct (findIndex_lookup id chats i Hfind) as (c & Hc & _ & Hfirst).
    rewrite Hfirst. cbn [fmap option_fmap option_map default].
    assert (Hflag : App.renamed c = true).
    { exact (Forall_lookup_1 _ _ _ _ Hflags Hc). }
    rewrite Hflag. cbn [negb].
    destruct manual; eexists; (split; [apply saveChats_holds|]); split; auto.
    by intros [=].
  - eexists. split; [apply saveChats_holds|]. split.
    + apply Forall_app. split; [done|]. by repeat constructor.
    + intros _ Hlisted. by apply findIndex_None in Hfind.
Qed.

(** X24. Deleting a chat removes it from the list and nothing else: when
    the ids of the list are distinct, after [deleteChatLocal(id)] no chat
    is found under the id, and the chat found under any other id is the
    one found before. *)
Theorem deleted_chat_is_gone
    (ls : gmap jsstring jsstring) (chats : list App.Chat) (id : jsstring) :
  ls !! js "chats" = Some (JSON_stringify chats) ->
  NoDup (map App.chat_id chats) ->
  let ls' := App.deleteChatLocal JSON_parse JSON_stringify id ls in
  (App.findChatById JSON_parse id ls').1.2 = None
  /\ forall other, other <> id ->
       (App.findChatById JSON_parse other ls').1.2
       = (App.findChatById JSON_parse other ls).1.2.
Proof.
  intros Hls Hnodup ls'. subst ls'. unfold App.deleteChatLocal.
  rewrite (findChatById_saved id ls chats Hls).
  destruct (App.findIndex _ chats) as [i|] eqn:Hfind.
  - destruct (firstChat_delete id chats i Hfind) as [Hid Hothers].
    split; [|intros other Hother];
      rewrite (findChatById_saved _ _ _ (saveChats_holds _ ls)),
        ?(findChatById_saved _ ls chats) by done; cbn [fst snd]; auto.
  - split; [|done]. rewrite (findChatById_saved id ls chats Hls). cbn [fst snd].
    apply firstChat_absent. by apply findIndex_None.
Qed.

End ChatList.

Lemma manual_rename_sets_the_title_witness :
  (App.findChatById sampleParse (js "k3x9")
     (App.renameChat sampleParse sampleStringify (js "k3x9") (js "Sums") true
        sampleStorage)).1.2
  = Some {| App.chat_id := js "k3x9"; App.title := js "Sums"; App.renamed := true |}.
Proof.
  apply (manual_rename_sets_the_title sampleParse sampleStringify
           sample_codec_round_trip sample_codec_nonempty
           sampleStorage sampleChats (js "k3x9") (js "Sums")).
  apply lookup_singleton_eq.
Defined.

Lemma automatic_rename_changes_no_title_witness :
  exists chats',
    App.renameChat sampleParse sampleStringify (js "k3x9") (js "Sums") false
      sampleStorage !! js "chats" = Some (sampleStringify chats')
    /\ Forall (fun c => App.renamed c = true) chats'
    /\ (false = false -> js "k3x9" ∈ map App.chat_id sampleChats ->
        chats' = sampleChats).
Proof.
  apply (automatic_rename_changes_no_title sampleParse sampleStringify
           sample_codec_round_trip sample_codec_nonempty
           sampleStorage sampleChats (js "k3x9") (js "Sums") false).
  - apply lookup_singleton_eq.
  - repeat constructor.
Defined.

Lemma deleted_chat_is_gone_witness :
  (App.findChatById sampleParse (js "k3x9")
     (App.deleteChatLocal sampleParse sampleStringify (js "k3x9") sampleStorage)).1.2
  = None.
Proof.
  apply (deleted_chat_is_gone sampleParse sampleStringify
           sample_codec_round_trip sample_codec_nonempty
           sampleStorage sampleChats (js "k3x9")).
  - apply lookup_singleton_eq.
  - apply (bool_decide_unpack _). by vm_compute.
Defined.
